(** * minimal-mvt: tile address to geometry query

    A shallow embedding of [minimal-mvt.py] (the AWS Lambda tile handler):
    the Python dicts are finite maps, Python [int] is [Z], Python [float]
    is IEEE binary64 ([PrimFloat.float]), exceptions are an error result,
    and the dicts that the code mutates or copies live in an explicit heap. *)

From Stdlib Require Import ZArith Floats Ascii String List Lia.
From stdpp Require Import gmap strings.

Set Warnings "-inexact-float".
Local Open Scope string_scope.
Local Open Scope Z_scope.

(** ** Exceptions and results *)

Inductive exn :=
| KeyError (key : string)
| ValueError
| TypeError
| OverflowError
| ZeroDivisionError
| NameError (name : string).

Inductive result (A : Type) :=
| Ok (a : A)
| Raise (e : exn).
Arguments Ok {A} a.
Arguments Raise {A} e.

#[global] Instance result_ret : MRet result := fun A a => Ok a.
#[global] Instance result_bind : MBind result := fun A B f r =>
  match r with
  | Ok a => f a
  | Raise e => Raise e
  end.
#[global] Instance result_fmap : FMap result := fun A B f r =>
  match r with
  | Ok a => Ok (f a)
  | Raise e => Raise e
  end.

(** ** Python values held by the parameter and tile dicts *)

Inductive value :=
| VInt (n : Z)
| VStr (s : string).

(** [d[k]]: a missing key raises [KeyError]. *)
Definition getitem {V : Type} (d : gmap string V) (k : string) : result V :=
  match d !! k with
  | Some v => Ok v
  | None => Raise (KeyError k)
  end.

(** [k in d] *)
Definition contains {V : Type} (k : string) (d : gmap string V) : bool :=
  bool_decide (is_Some (d !! k)).

(** ** Numbers *)

(** The result of [2 ** zoom] is an [int] for a non-negative exponent and a
    [float] for a negative one. *)
Inductive num :=
| NInt (n : Z)
| NFloat (f : float).

(** Nearest binary64 value of an integer, ties to even (infinite when the
    integer is too large). *)
Definition Z2float (n : Z) : float :=
  SF2Prim (binary_normalize prec emax n 0 false).

(** Largest magnitude below which an [int] converts to a finite [float]:
    halfway between the largest finite binary64 value and [2^1024]. *)
Definition float_overflow_bound : Z := 2 ^ 1024 - 2 ^ 970.

(** Implicit [int] to [float] conversion of mixed arithmetic:
    [OverflowError: int too large to convert to float]. *)
Definition int_to_float (n : Z) : result float :=
  if Z.abs n <? float_overflow_bound then Ok (Z2float n) else Raise OverflowError.

(** [2 ** e] for an [int] exponent. A negative exponent is computed in
    floating point, [2.0 ** float(e)], which is exact on powers of two and
    underflows to zero. *)
Definition pow2 (e : Z) : result num :=
  if 0 <=? e then Ok (NInt (2 ^ e))
  else _ ← int_to_float e; Ok (NFloat (Z.ldexp 1 e)).

(** [2 ** v] *)
Definition py_pow2 (v : value) : result num :=
  match v with
  | VInt e => pow2 e
  | VStr _ => Raise TypeError
  end.

(** Python compares an [int] with a [float] by their exact values. *)
Definition int_float_compare (n : Z) (f : float) : option comparison :=
  match Prim2SF f with
  | S754_nan => None
  | S754_infinity s => Some (if s then Gt else Lt)
  | S754_zero _ => Some (n ?= 0)
  | S754_finite s m e =>
      let v := if s then Z.neg m else Z.pos m in
      Some (if 0 <=? e then n ?= v * 2 ^ e else n * 2 ^ (- e) ?= v)
  end.

(** [v >= size] *)
Definition py_ge (v : value) (size : num) : result bool :=
  match v, size with
  | VInt n, NInt s => Ok (s <=? n)
  | VInt n, NFloat f =>
      Ok (match int_float_compare n f with
          | Some Lt | None => false
          | Some _ => true
          end)
  | VStr _, _ => Raise TypeError
  end.

(** [v < 0] *)
Definition py_lt0 (v : value) : result bool :=
  match v with
  | VInt n => Ok (n <? 0)
  | VStr _ => Raise TypeError
  end.

(** [v + 1] *)
Definition py_succ (v : value) : result value :=
  match v with
  | VInt n => Ok (VInt (n + 1))
  | VStr _ => Raise TypeError
  end.

(** [f * v] for a [float] [f] *)
Definition float_mul (f : float) (v : value) : result float :=
  match v with
  | VInt n => g ← int_to_float n; Ok (f * g)%float
  | VStr _ => Raise TypeError
  end.

(** [f / n] for a [float] [f] *)
Definition float_truediv (f : float) (n : num) : result float :=
  g ← match n with
      | NInt k => int_to_float k
      | NFloat g => Ok g
      end;
  if (g =? 0)%float then Raise ZeroDivisionError else Ok (f / g)%float.

(** ** [int(s)]

    The conversion of a [str] by CPython 3.11 (Unicode 14.0, default
    limit of 4300 digits). A Python [str] is held as the string of its
    UTF-8 bytes; a byte string that is not UTF-8 stands for no [str]. *)

Definition byte (c : ascii) : Z := Z.of_nat (nat_of_ascii c).

Definition continuation (b : Z) : bool := (0x80 <=? b) && (b <=? 0xbf).

(** The code points of a [str]: shortest-form UTF-8, surrogates
    excluded. *)
Fixpoint utf8_decode (s : string) : option (list Z) :=
  match s with
  | EmptyString => Some []
  | String c0 r0 =>
      let b0 := byte c0 in
      if b0 <? 0x80 then cons b0 <$> utf8_decode r0
      else if (0xc2 <=? b0) && (b0 <=? 0xdf) then
        match r0 with
        | String c1 r1 =>
            let b1 := byte c1 in
            if continuation b1
            then cons ((b0 - 0xc0) * 64 + (b1 - 0x80)) <$> utf8_decode r1
            else None
        | _ => None
        end
      else if (0xe0 <=? b0) && (b0 <=? 0xef) then
        match r0 with
        | String c1 (String c2 r2) =>
            let b1 := byte c1 in
            let b2 := byte c2 in
            let cp := (b0 - 0xe0) * 4096 + (b1 - 0x80) * 64 + (b2 - 0x80) in
            if continuation b1 && continuation b2 && (0x800 <=? cp)
               && negb ((0xd800 <=? cp) && (cp <=? 0xdfff))
            then cons cp <$> utf8_decode r2
            else None
        | _ => None
        end
      else if (0xf0 <=? b0) && (b0 <=? 0xf4) then
        match r0 with
        | String c1 (String c2 (String c3 r3)) =>
            let b1 := byte c1 in
            let b2 := byte c2 in
            let b3 := byte c3 in
            let cp := (b0 - 0xf0) * 262144 + (b1 - 0x80) * 4096
                      + (b2 - 0x80) * 64 + (b3 - 0x80) in
            if continuation b1 && continuation b2 && continuation b3
               && (0x10000 <=? cp) && (cp <=? 0x10ffff)
            then cons cp <$> utf8_decode r3
            else None
        | _ => None
        end
      else None
  end.

(** White space beyond ASCII ([Py_UNICODE_ISSPACE]). *)
Definition unicode_space (c : Z) : bool :=
  bool_decide (c ∈ [0x85; 0xa0; 0x1680; 0x2028; 0x2029; 0x202f; 0x205f; 0x3000])
  || ((0x2000 <=? c) && (c <=? 0x200a)).

(** The code points of the digit zero of the decimal digit runs beyond
    ASCII; the digits 0 to 9 of a run are consecutive. *)
Definition decimal_zeros : list Z :=
  [0x660; 0x6f0; 0x7c0; 0x966; 0x9e6; 0xa66; 0xae6; 0xb66; 0xbe6; 0xc66;
   0xce6; 0xd66; 0xde6; 0xe50; 0xed0; 0xf20; 0x1040; 0x1090; 0x17e0; 0x1810;
   0x1946; 0x19d0; 0x1a80; 0x1a90; 0x1b50; 0x1bb0; 0x1c40; 0x1c50; 0xa620;
   0xa8d0; 0xa900; 0xa9d0; 0xa9f0; 0xaa50; 0xabf0; 0xff10; 0x104a0; 0x10d30;
   0x11066; 0x110f0; 0x11136; 0x111d0; 0x112f0; 0x11450; 0x114d0; 0x11650;
   0x116c0; 0x11730; 0x118e0; 0x11950; 0x11c50; 0x11d50; 0x11da0; 0x16a60;
   0x16ac0; 0x16b50; 0x1d7ce; 0x1d7d8; 0x1d7e2; 0x1d7ec; 0x1d7f6; 0x1e140;
   0x1e2f0; 0x1e950; 0x1fbf0].

(** [Py_UNICODE_TODECIMAL] beyond ASCII *)
Definition unicode_decimal (c : Z) : option Z :=
  (λ z, c - z) <$> List.find (λ z, (z <=? c) && (c <? z + 10)) decimal_zeros.

(** [_PyUnicode_TransformDecimalAndSpaceToASCII]: an ASCII text is taken
    as it is; otherwise white space becomes a space, a decimal digit its
    ASCII digit and any other code point from 127 on a question mark
    (CPython cuts the text after the first one; the conversion fails at
    that character either way). *)
Definition to_ascii (cs : list Z) : list Z :=
  if forallb (λ c, c <? 128) cs then cs
  else
    (λ c, if c <? 127 then c
          else if unicode_space c then 32
          else match unicode_decimal c with
               | Some d => 48 + d
               | None => 63
               end) <$> cs.

(** [Py_ISSPACE] *)
Definition is_space (c : Z) : bool :=
  ((9 <=? c) && (c <=? 13)) || (c =? 32).

Definition digit_of (c : Z) : option Z :=
  if (48 <=? c) && (c <=? 57) then Some (c - 48) else None.

Fixpoint lstrip (s : list Z) : list Z :=
  match s with
  | c :: r => if is_space c then lstrip r else s
  | [] => s
  end.

Definition strip (s : list Z) : list Z :=
  rev (lstrip (rev (lstrip s))).

(** [sys.get_int_max_str_digits()] *)
Definition int_max_str_digits : Z := 4300.

(** Decimal digits, single underscores allowed between digits; [count] is
    the number of digits read so far. *)
Fixpoint parse_digits (s : list Z) (acc count : Z) (after_digit : bool)
  : option Z :=
  match s with
  | [] =>
      if after_digit && (count <=? int_max_str_digits) then Some acc else None
  | c :: r =>
      match digit_of c with
      | Some d => parse_digits r (10 * acc + d) (count + 1) true
      | None =>
          if (c =? 95) && after_digit then parse_digits r acc count false
          else None
      end
  end.

(** [PyLong_FromString] in base 10: white space, a sign, the digits,
    white space. *)
Definition parse_ascii (s : list Z) : option Z :=
  match strip s with
  | 45 :: r => Z.opp <$> parse_digits r 0 0 false
  | 43 :: r => parse_digits r 0 0 false
  | r => parse_digits r 0 0 false
  end.

Definition parse_int (s : string) : option Z :=
  cs ← utf8_decode s; parse_ascii (to_ascii cs).

(** [int(v)] *)
Definition py_int (v : value) : result Z :=
  match v with
  | VInt n => Ok n
  | VStr s =>
      match parse_int s with
      | Some n => Ok n
      | None => Raise ValueError
      end
  end.

(** ** Tile address parsing and validation *)

#[global] Instance value_eq_dec : EqDecision value.
Proof. solve_decision. Defined.

(** Truth value of a dict: [len(d) != 0]. *)
Definition truthy {V : Type} (d : gmap string V) : bool :=
  negb (Nat.eqb (size d) 0).

(** [pathToTile(params)]; [params] is [None] when the request carries no
    path parameters. The dict items are evaluated in source order. *)
Definition pathToTile (params : option (gmap string value))
  : result (option (gmap string value)) :=
  match params with
  | Some p =>
      if truthy p then
        zoom ← getitem p "z" ≫= py_int;
        x ← getitem p "x" ≫= py_int;
        y ← getitem p "y" ≫= py_int;
        Ok (Some {[ "zoom" := VInt zoom; "x" := VInt x; "y" := VInt y;
                    "format" := VStr "mvt" ]})
      else Ok None
  | None => Ok None
  end.

(** [tileIsValid(tile)] *)
Definition tileIsValid (tile : gmap string value) : result bool :=
  if negb (contains "x" tile && contains "y" tile && contains "zoom" tile)
  then Ok false
  else
    format_bad ←
      (if negb (contains "format" tile) then Ok true
       else fmt ← getitem tile "format";
            Ok (negb (bool_decide (fmt ∈ [VStr "pbf"; VStr "mvt"]))));
    if format_bad : bool then Ok false
    else
      size ← getitem tile "zoom" ≫= py_pow2;
      x_big ← (x ← getitem tile "x"; py_ge x size);
      too_big ← (if x_big : bool then Ok true
                 else y ← getitem tile "y"; py_ge y size);
      if too_big : bool then Ok false
      else
        x_neg ← getitem tile "x" ≫= py_lt0;
        negative ← (if x_neg : bool then Ok true
                    else getitem tile "y" ≫= py_lt0);
        if negative : bool then Ok false else Ok true.

(** The tile dict for the address [(z, x, y)], as [pathToTile] builds it. *)
Definition tile_of (z x y : Z) : gmap string value :=
  {[ "zoom" := VInt z; "x" := VInt x; "y" := VInt y; "format" := VStr "mvt" ]}.

(** ** The heap of mutable dicts *)

Definition loc := positive.

(** Envelope dicts hold floats; the table configuration and its copies
    hold strings. *)
Record heap := Heap {
  envelopes : gmap loc (gmap string float);
  tables : gmap loc (gmap string string)
}.

(** Heap computations: an exception leaves the heap as it was when raised. *)
Definition M (A : Type) : Type := heap → result A * heap.

#[global] Instance M_ret : MRet M := fun A a h => (Ok a, h).
#[global] Instance M_bind : MBind M := fun A B f m h =>
  match m h with
  | (Ok a, h') => f a h'
  | (Raise e, h') => (Raise e, h')
  end.

Definition lift {A : Type} (r : result A) : M A := fun h => (r, h).

(** The contents of the envelope dict at [l] (empty when [l] is not
    allocated, which no reference held by the program is). *)
Definition env_at (h : heap) (l : loc) : gmap string float :=
  default ∅ (envelopes h !! l).

Definition table_at (h : heap) (l : loc) : gmap string string :=
  default ∅ (tables h !! l).

(** [dict()] *)
Definition new_env : M loc := fun h =>
  let l := fresh (dom (envelopes h)) in
  (Ok l, Heap (<[l := ∅]> (envelopes h)) (tables h)).

(** [env[k]] *)
Definition env_get (l : loc) (k : string) : M float := fun h =>
  (getitem (env_at h l) k, h).

(** [env[k] = v] *)
Definition env_set (l : loc) (k : string) (v : float) : M unit := fun h =>
  (Ok tt, Heap (<[l := <[k := v]> (env_at h l)]> (envelopes h)) (tables h)).

(** [**env] *)
Definition env_items (l : loc) : M (gmap string float) := fun h =>
  (Ok (env_at h l), h).

(** [tbl.copy()] *)
Definition table_copy (l : loc) : M loc := fun h =>
  let l' := fresh (dom (tables h)) in
  (Ok l', Heap (envelopes h) (<[l' := table_at h l]> (tables h))).

(** [tbl[k] = v] *)
Definition table_set (l : loc) (k : string) (v : string) : M unit := fun h =>
  (Ok tt, Heap (envelopes h) (<[l := <[k := v]> (table_at h l)]> (tables h))).

(** [**tbl] *)
Definition table_items (l : loc) : M (gmap string string) := fun h =>
  (Ok (table_at h l), h).

(** ** [str.format] with keyword arguments

    Replacement fields are plain names, [{name}]; doubled braces are
    literal braces. [field] is the name read so far inside a field. *)
Fixpoint format_from {V : Type} (render : V → string) (kw : gmap string V)
    (tmpl : string) (field : option string) : result string :=
  match tmpl, field with
  | EmptyString, None => Ok EmptyString
  | EmptyString, Some _ => Raise ValueError
  | String c r, None =>
      if Ascii.eqb c "{" then
        match r with
        | String "{" r' => String "{"%char <$> format_from render kw r' None
        | _ => format_from render kw r (Some EmptyString)
        end
      else if Ascii.eqb c "}" then
        match r with
        | String "}" r' => String "}"%char <$> format_from render kw r' None
        | _ => Raise ValueError
        end
      else String c <$> format_from render kw r None
  | String c r, Some name =>
      if Ascii.eqb c "}" then
        v ← getitem kw name;
        rest ← format_from render kw r None;
        Ok (render v ++ rest)%string
      else if Ascii.eqb c "{" then Raise ValueError
      else format_from render kw r (Some (name ++ String c EmptyString)%string)
  end.

Definition str_format {V : Type} (render : V → string) (tmpl : string)
    (kw : gmap string V) : result string :=
  format_from render kw tmpl None.

(** ** Envelope projection *)

(** [tileToEnvelope(tile)]: returns the reference of the new envelope dict. *)
Definition tileToEnvelope (tile : gmap string value) : M loc :=
  let worldMercMax := 20037508.3427892%float in
  let worldMercMin := (-1 * worldMercMax)%float in
  let worldMercSize := (worldMercMax - worldMercMin)%float in
  worldTileSize ← lift (getitem tile "zoom" ≫= py_pow2);
  tileMercSize ← lift (float_truediv worldMercSize worldTileSize);
  env ← new_env;
  w ← lift (getitem tile "x" ≫= float_mul tileMercSize);
  env_set env "xmin" (worldMercMin + w)%float;;
  e ← lift (x1 ← getitem tile "x" ≫= py_succ; float_mul tileMercSize x1);
  env_set env "xmax" (worldMercMin + e)%float;;
  s ← lift (y1 ← getitem tile "y" ≫= py_succ; float_mul tileMercSize y1);
  env_set env "ymin" (worldMercMax - s)%float;;
  n ← lift (getitem tile "y" ≫= float_mul tileMercSize);
  env_set env "ymax" (worldMercMax - n)%float;;
  mret env.

(** The contents of the dict that [tileToEnvelope] builds, as a function
    of the tile alone. *)
Definition envelope_of (tile : gmap string value) : result (gmap string float) :=
  let worldMercMax := 20037508.3427892%float in
  let worldMercMin := (-1 * worldMercMax)%float in
  let worldMercSize := (worldMercMax - worldMercMin)%float in
  worldTileSize ← getitem tile "zoom" ≫= py_pow2;
  tileMercSize ← float_truediv worldMercSize worldTileSize;
  w ← getitem tile "x" ≫= float_mul tileMercSize;
  e ← (x1 ← getitem tile "x" ≫= py_succ; float_mul tileMercSize x1);
  s ← (y1 ← getitem tile "y" ≫= py_succ; float_mul tileMercSize y1);
  n ← getitem tile "y" ≫= float_mul tileMercSize;
  Ok (<["ymax" := (worldMercMax - n)%float]>
        (<["ymin" := (worldMercMax - s)%float]>
           (<["xmax" := (worldMercMin + e)%float]>
              (<["xmin" := (worldMercMin + w)%float]> ∅)))).

(** ** Query construction *)

(** The module-level dict [TABLE]. *)
Definition TABLE : loc := 1%positive.

(** [TABLE] as the module builds it from the environment variables
    [table] and [srid]. *)
Definition table_spec (table srid : string) : gmap string string :=
  {[ "table" := table; "srid" := srid; "geomColumn" := "geom";
     "attrColumns" := "id" ]}.

(** The heap once the module is loaded. *)
Definition module_heap (table srid : string) : heap :=
  Heap ∅ {[ TABLE := table_spec table srid ]}.

(** [sql_tmpl] of [envelopeToBoundsSQL] *)
Definition bounds_template : string :=
  "ST_Segmentize(ST_MakeEnvelope({xmin}, {ymin}, {xmax}, {ymax}, 3857),{segSize})".

(** [sql_tmpl] of [envelopeToSQL] *)
Definition query_template : string :=
  "
            WITH 
            bounds AS (
                SELECT {env} AS geom, 
                       {env}::box2d AS b2d
            ),
            mvtgeom AS (
                SELECT ST_AsMVTGeom(ST_Transform(ST_Force2D(t.{geomColumn}), 3857), bounds.b2d) AS geom, 
                       {attrColumns}
                FROM {table} t, bounds
                WHERE ST_Intersects(t.{geomColumn}, ST_Transform(bounds.geom, {srid}))
            ) 
            SELECT ST_AsMVT(mvtgeom.*) FROM mvtgeom
        ".

(** The HTTP response dict of the handler. *)
Record response := Response {
  statusCode : Z;
  isBase64Encoded : option bool;
  headers : list (string * string);
  body : string
}.

(** [self.path] inside [lambda_handler]: [self] is not a local, a
    module-level name or a builtin there. *)
Definition self_path : result string := Raise (NameError "self").

Section Handler.

(** Text of a float in a replacement field (its [repr]). *)
Variable float_str : float → string.
(** [rdsData.execute_statement] on the configured database, followed by
    the extraction of the first [blobValue]. *)
Variable execute_statement : string → result string.
Variable json_dumps : string → string.
Variable b64encode : string → string.

(** [envelopeToBoundsSQL(env)] *)
Definition envelopeToBoundsSQL (env : loc) : M string :=
  let DENSIFY_FACTOR := 4 in
  xmax ← env_get env "xmax";
  xmin ← env_get env "xmin";
  segSize ← lift (float_truediv (xmax - xmin)%float (NInt DENSIFY_FACTOR));
  env_set env "segSize" segSize;;
  let sql_tmpl := bounds_template in
  kw ← env_items env;
  lift (str_format float_str sql_tmpl kw).

(** [envelopeToSQL(env)] *)
Definition envelopeToSQL (env : loc) : M string :=
  tbl ← table_copy TABLE;
  bounds ← envelopeToBoundsSQL env;
  table_set tbl "env" bounds;;
  let sql_tmpl := query_template in
  kw ← table_items tbl;
  lift (str_format id sql_tmpl kw).

(** [sqlToPbf(sql)] *)
Definition sqlToPbf (sql : string) : M string :=
  lift (execute_statement sql).

(** [lambda_handler(event, context)]; the two [print] calls write to the
    log only. *)
Definition lambda_handler (event : gmap string (option (gmap string value)))
  : M response :=
  let bad_request : M response :=
    path ← lift self_path;
    mret (Response 400 None []
            (json_dumps ("invalid tile path: " ++ path)%string)) in
  params ← lift (getitem event "pathParameters");
  tile ← lift (pathToTile params);
  match tile with
  | None => bad_request
  | Some tile =>
      valid ← (if truthy tile then lift (tileIsValid tile) else mret false);
      if valid : bool then
        env ← tileToEnvelope tile;
        sql ← envelopeToSQL env;
        pbf ← sqlToPbf sql;
        mret (Response 200 (Some true)
                [("Content-type", "application/vnd.mapbox-vector-tile");
                 ("Access-Control-Allow-Headers", "Content-Type");
                 ("Access-Control-Allow-Origin", "*");
                 ("Access-Control-Allow-Methods", "OPTIONS,GET")]
                (b64encode pbf))
      else bad_request
  end.

(** The text of the bounds expression and of the query as functions of
    the contents of the envelope dict and of [TABLE]. *)
Definition segment_size (d : gmap string float) : result float :=
  xmax ← getitem d "xmax";
  xmin ← getitem d "xmin";
  float_truediv (xmax - xmin)%float (NInt 4).

Definition bounds_of (d : gmap string float) : result string :=
  segSize ← segment_size d;
  str_format float_str bounds_template (<["segSize" := segSize]> d).

Definition query_of (d : gmap string float) (tbl : gmap string string)
  : result string :=
  bounds ← bounds_of d;
  str_format id query_template (<["env" := bounds]> tbl).

End Handler.

(** ** Reference formulas of the specification *)

(** A geographic envelope: the four edges of a tile. *)
Record envelope := Envelope {
  xmin : float;
  ymin : float;
  xmax : float;
  ymax : float
}.

Definition worldMin : float := (-20037508.3427892)%float.
Definition worldMax : float := 20037508.3427892%float.
Definition worldSize : float := (worldMax - worldMin)%float.

(** Tile width in projected units: [worldSize / 2^zoom]. *)
Definition tileWidth (z : Z) : float := (worldSize / Z2float (2 ^ z))%float.

(** The envelope formula of the specification, in binary64 arithmetic. *)
Definition envelope_formula (z x y : Z) : envelope :=
  {| xmin := (worldMin + tileWidth z * Z2float x)%float;
     xmax := (worldMin + tileWidth z * Z2float (x + 1))%float;
     ymin := (worldMax - tileWidth z * Z2float (y + 1))%float;
     ymax := (worldMax - tileWidth z * Z2float y)%float |}.

(** The dict that holds an envelope. *)
Definition envelope_dict (e : envelope) : gmap string float :=
  <["ymax" := ymax e]> (<["ymin" := ymin e]> (<["xmax" := xmax e]>
    (<["xmin" := xmin e]> ∅))).

(** The error conditions of the parser: a key is absent ([KeyError]) or a
    value is not numeric ([ValueError]). *)
Definition MalformedAddress (e : exn) : Prop :=
  (∃ k, e = KeyError k) ∨ e = ValueError.

(** Key [k] of the parameters is absent or holds a string that [int]
    rejects. *)
Definition absent_or_non_numeric (p : gmap string value) (k : string) : Prop :=
  p !! k = None ∨ ∃ s, p !! k = Some (VStr s) ∧ parse_int s = None.

(** [p k] for every [k] below [n]. *)
Fixpoint all_below (n : nat) (p : Z → bool) : bool :=
  match n with
  | O => true
  | S k => p (Z.of_nat k) && all_below k p
  end.

(** Tolerance on the side lengths of an envelope, in projected units. *)
Definition side_tolerance : float := 1e-8%float.

(** The edges computed from the floats [c] and [c1] of a coordinate and
    of its successor, along either axis, are strictly ordered and their
    distance is within the tolerance of the tile width [tw]. *)
Definition sides_ok (tw c c1 : float) : bool :=
  let west := (worldMin + tw * c)%float in
  let east := (worldMin + tw * c1)%float in
  let south := (worldMax - tw * c1)%float in
  let north := (worldMax - tw * c)%float in
  (west <? east)%float && (south <? north)%float &&
  (abs ((east - west) - tw) <=? side_tolerance)%float &&
  (abs ((north - south) - tw) <=? side_tolerance)%float.

(** [sides_ok] for coordinate [k] at zoom [z]. *)
Definition coordinate_ok (z k : Z) : bool :=
  sides_ok (tileWidth z) (Z2float k) (Z2float (k + 1)).

(** ** Binary64 values as integers

    The error analysis of the envelope counts values in ticks and follows
    the rounding of [SpecFloat]. *)

(** [n] right shifts of a mantissa with its round and sticky bits. *)
Definition shr_n (n : Z) (mrs : shr_record) : shr_record :=
  {| shr_m := shr_m mrs / 2 ^ n;
     shr_r := Z.testbit (shr_m mrs) (n - 1);
     shr_s := shr_r mrs || shr_s mrs || negb (shr_m mrs mod 2 ^ (n - 1) =? 0) |}.

(** Exponent of the unit in which values are counted: one tick is
    [2^-600]. *)
Definition scale : Z := 600.

(** The value of a finite float, in ticks. *)
Definition ticks (f : spec_float) : Z :=
  match f with
  | S754_finite s m e => cond_Zopp s (Z.pos m) * 2 ^ (e + scale)
  | _ => 0
  end.

(** A zero, or a normal number with exponent between [lo] and [hi]. *)
Definition normal_in (lo hi : Z) (f : spec_float) : Prop :=
  match f with
  | S754_zero _ => True
  | S754_finite _ m e => 2 ^ 52 ≤ Z.pos m < 2 ^ 53 ∧ lo ≤ e ≤ hi
  | _ => False
  end.

(** [f] is a float nearest to the value of [v] ticks: it has the sign of
    [v], is within half a unit in the last place, and is [v] itself when
    [v] has at most 53 significant bits. *)
Definition nearest (v : Z) (f : spec_float) : Prop :=
  match f with
  | S754_zero _ => v = 0
  | S754_finite s m e =>
      (if s then v < 0 else 0 < v) ∧
      2 * Z.abs (ticks f - v) ≤ 2 ^ (e + scale) ∧
      (∀ g, 0 ≤ g → (2 ^ g | v) → Z.abs v < 2 ^ (g + 53) → ticks f = v)
  | _ => False
  end.

(** The mantissa of the world bound: [worldMax] is
    [world_mantissa * 2^-28]. *)
Definition world_mantissa : positive := 5378777689100423.

(** The world bound and the tile width of zoom [z], in ticks. *)
Definition world_ticks : Z := Z.pos world_mantissa * 2 ^ (scale - 28).
Definition width_ticks (z : Z) : Z := Z.pos world_mantissa * 2 ^ (scale - 27 - z).

(** The tile width of zoom [z] is the world size scaled by [2^-z]. *)
Definition width_ok (z : Z) : bool :=
  match Prim2SF (tileWidth z) with
  | S754_finite false m e => (Z.pos m =? Z.pos world_mantissa) && (e =? -27 - z)
  | _ => false
  end.

(** [coordinate_ok] for every coordinate of zoom [z]. *)
Definition low_zoom_ok (z : Z) : bool :=
  all_below (Z.to_nat (2 ^ z)) (coordinate_ok z).

(** An example heap: the module is loaded for the table [roads] and the
    envelope of tile (0, 0, 0) is stored at location 1. *)
Definition example_heap : heap :=
  Heap {[ 1%positive := envelope_dict (envelope_formula 0 0 0) ]}
       {[ TABLE := table_spec "roads" "4326" ]}.

(** A request for the tile path [/2/4/0]. *)
Definition example_event : gmap string (option (gmap string value)) :=
  {[ "pathParameters" :=
       Some {[ "z" := VStr "2"; "x" := VStr "4"; "y" := VStr "0" ]} ]}.

(** A request for the tile path [/z/x/y]. *)
Definition request_for (z x y : string) : gmap string (option (gmap string value)) :=
  {[ "pathParameters" := Some {[ "z" := VStr z; "x" := VStr x; "y" := VStr y ]} ]}.

(** [f] is a float strictly between 0 and 1. *)
Definition subunit (f : float) : bool :=
  match Prim2SF f with
  | S754_finite false m e => (e <? 0) && (Z.pos m <? 2 ^ (- e))
  | _ => false
  end.

(** [2.0 ** z] is strictly between 0 and 1 from [z = -1] down to the
    smallest subnormal, and zero below. *)
Definition negative_power_ok (z : Z) : bool :=
  if -1074 <=? z then subunit (Z.ldexp 1 z) && negb (Z.ldexp 1 z =? 0)%float
  else match Prim2SF (Z.ldexp 1 z) with S754_zero _ => true | _ => false end.

(** The address of a tile of the grid: at zoom [z ≥ 0] the coordinates lie
    in [0, 2^z); at the fractional zooms only the origin remains. *)
Definition on_grid (z x y : Z) : Prop :=
  (0 ≤ z ∧ 0 ≤ x < 2 ^ z ∧ 0 ≤ y < 2 ^ z) ∨ (-1074 ≤ z < 0 ∧ x = 0 ∧ y = 0).

#[global] Instance on_grid_dec z x y : Decision (on_grid z x y).
Proof. unfold on_grid. apply _. Defined.

(** Two floats with the same binary64 value. *)
Definition same_float (a b : float) : bool :=
  match Prim2SF a, Prim2SF b with
  | S754_zero s, S754_zero t => Bool.eqb s t
  | S754_infinity s, S754_infinity t => Bool.eqb s t
  | S754_nan, S754_nan => true
  | S754_finite s m e, S754_finite t n f => Bool.eqb s t && Pos.eqb m n && Z.eqb e f
  | _, _ => false
  end.

(** The outer edges of the first and of the last tile of zoom [z] are the
    world bounds. *)
Definition boundary_ok (z : Z) : bool :=
  let first := envelope_formula z 0 0 in
  let last := envelope_formula z (2 ^ z - 1) (2 ^ z - 1) in
  same_float (xmin first) worldMin && same_float (ymax first) worldMax &&
  same_float (xmax last) worldMax && same_float (ymin last) worldMin.

(** The query text: [query_template] with the bounds expression, the
    geometry column, the attribute columns, the table and the SRID in
    place of its fields. *)
Definition query_text (bounds geom attrs table srid : string) : string :=
  ("
            WITH 
            bounds AS (
                SELECT " ++ bounds ++
   " AS geom, 
                       " ++ bounds ++
   "::box2d AS b2d
            ),
            mvtgeom AS (
                SELECT ST_AsMVTGeom(ST_Transform(ST_Force2D(t." ++ geom ++
   "), 3857), bounds.b2d) AS geom, 
                       " ++ attrs ++
   "
                FROM " ++ table ++
   " t, bounds
                WHERE ST_Intersects(t." ++ geom ++
   ", ST_Transform(bounds.geom, " ++ srid ++
   "))
            ) 
            SELECT ST_AsMVT(mvtgeom.*) FROM mvtgeom
        ")%string.

(** The bounds expression of an envelope. *)
Definition bounds_sql (float_str : float → string) (e : envelope) : string :=
  ("ST_Segmentize(ST_MakeEnvelope(" ++ float_str (xmin e) ++ ", "
   ++ float_str (ymin e) ++ ", " ++ float_str (xmax e) ++ ", "
   ++ float_str (ymax e) ++ ", 3857)," ++ float_str ((xmax e - xmin e) / 4)%float
   ++ ")")%string.

(** The response to a served tile. *)
Definition tile_response (body : string) : response :=
  Response 200 (Some true)
    [("Content-type", "application/vnd.mapbox-vector-tile");
     ("Access-Control-Allow-Headers", "Content-Type");
     ("Access-Control-Allow-Origin", "*");
     ("Access-Control-Allow-Methods", "OPTIONS,GET")]
    body.

Section HandlerResult.

Variable float_str : float → string.
Variable execute_statement : string → result string.
Variable b64encode : string → string.

(** The outcome of [lambda_handler] as a function of the event and of the
    contents of [TABLE]. *)
Definition handler_result (event : gmap string (option (gmap string value)))
    (tbl : gmap string string) : result response :=
  params ← getitem event "pathParameters";
  tile ← pathToTile params;
  match tile with
  | None => Raise (NameError "self")
  | Some tile =>
      valid ← (if truthy tile then tileIsValid tile else Ok false);
      if valid : bool then
        d ← envelope_of tile;
        sql ← query_of float_str d tbl;
        pbf ← execute_statement sql;
        Ok (tile_response (b64encode pbf))
      else Raise (NameError "self")
  end.

End HandlerResult.

(** A string without braces: literal text of a template, or a field name. *)
Fixpoint no_brace (s : string) : bool :=
  match s with
  | EmptyString => true
  | String c r => negb (Ascii.eqb c "{") && negb (Ascii.eqb c "}") && no_brace r
  end.

(** Edge [k] of the envelope that a run of [tileToEnvelope] returns. *)
Definition edge (k : string) (run : result loc * heap) : result float :=
  match run with
  | (Ok l, h) => getitem (env_at h l) k
  | (Raise e, _) => Raise e
  end.

(** * Properties *)

Lemma all_below_spec n p :
  all_below n p = true → ∀ k, 0 ≤ k < Z.of_nat n → p k = true.
Proof.
  induction n as [|n IH]; simpl; intros H k Hk; [lia|].
  apply andb_true_iff in H as [Hn Hrest].
  destruct (decide (k = Z.of_nat n)) as [->|Hne]; [done|].
  apply IH; [done|lia].
Qed.

(** ** Validation *)

Lemma contains_lookup {V} (d : gmap string V) k v :
  d !! k = Some v → contains k d = true.
Proof. intros H. unfold contains. rewrite H. by apply bool_decide_eq_true. Qed.

Lemma getitem_lookup {V} (d : gmap string V) k v :
  d !! k = Some v → getitem d k = Ok v.
Proof. intros H. unfold getitem. by rewrite H. Qed.

Lemma pow2_nonneg z : 0 ≤ z → pow2 z = Ok (NInt (2 ^ z)).
Proof. intros H. unfold pow2. by rewrite (proj2 (Z.leb_le 0 z) H). Qed.

(** C2: a tile with format 'mvt' and zoom [z >= 0] is valid exactly when
    [0 <= x < 2^z] and [0 <= y < 2^z]. *)
Theorem tileIsValid_bounds (tile : gmap string value) (z x y : Z) :
  tile !! "zoom" = Some (VInt z) →
  tile !! "x" = Some (VInt x) →
  tile !! "y" = Some (VInt y) →
  tile !! "format" = Some (VStr "mvt") →
  0 ≤ z →
  tileIsValid tile = Ok (bool_decide (0 ≤ x < 2 ^ z ∧ 0 ≤ y < 2 ^ z)).
Proof.
  intros Hz Hx Hy Hf Hz0. unfold tileIsValid.
  rewrite (contains_lookup _ _ _ Hz), (contains_lookup _ _ _ Hx),
    (contains_lookup _ _ _ Hy), (contains_lookup _ _ _ Hf).
  rewrite (getitem_lookup _ _ _ Hz), (getitem_lookup _ _ _ Hx),
    (getitem_lookup _ _ _ Hy), (getitem_lookup _ _ _ Hf).
  cbn. rewrite bool_decide_eq_true_2 by (repeat constructor).
  rewrite (pow2_nonneg z Hz0). cbn.
  destruct (Z.leb_spec (2 ^ z) x) as [Hxb|Hxb]; cbn.
  { by rewrite bool_decide_eq_false_2 by lia. }
  destruct (Z.leb_spec (2 ^ z) y) as [Hyb|Hyb]; cbn.
  { by rewrite bool_decide_eq_false_2 by lia. }
  destruct (Z.ltb_spec x 0) as [Hxn|Hxn]; cbn.
  { by rewrite bool_decide_eq_false_2 by lia. }
  destruct (Z.ltb_spec y 0) as [Hyn|Hyn]; cbn.
  { by rewrite bool_decide_eq_false_2 by lia. }
  by rewrite bool_decide_eq_true_2 by lia.
Qed.

Lemma tileIsValid_bounds_witness :
  tileIsValid (tile_of 2 4 0) = Ok false ∧ tileIsValid (tile_of 9 255 170) = Ok true.
Proof.
  split.
  - rewrite (tileIsValid_bounds (tile_of 2 4 0) 2 4 0); [|reflexivity..|lia].
    reflexivity.
  - rewrite (tileIsValid_bounds (tile_of 9 255 170) 9 255 170);
      [|reflexivity..|lia].
    reflexivity.
Defined.

(** C10: the validator does not check that zoom is non-negative: the tile
    with zoom -1, x 0 and y 0 has the fractional grid size 0.5 and is
    accepted. *)
Theorem tileIsValid_negative_zoom :
  tile_of (-1) 0 0 !! "zoom" = Some (VInt (-1)) ∧
  pow2 (-1) = Ok (NFloat 0.5) ∧
  tileIsValid (tile_of (-1) 0 0) = Ok true.
Proof. repeat split; vm_compute; reflexivity. Qed.

(** ** Parsing *)

Lemma truthy_nonempty {V} (d : gmap string V) : d ≠ ∅ → truthy d = true.
Proof.
  intros Hne. unfold truthy. apply negb_true_iff, Nat.eqb_neq.
  intros Hsize. by apply Hne, map_size_empty_iff.
Qed.

(** [int] on texts at the edges of what it accepts, given by their UTF-8
    bytes: the separators U+001C to U+001F are no white space for [int];
    a no-break space (U+00A0) is; an Arabic-Indic digit (U+0665) is a
    digit; an underscore stands between two digits only; and 4300 digits
    are converted, 4301 are not. *)
Lemma int_examples :
  let str := λ bytes : list nat, string_of_list_ascii (ascii_of_nat <$> bytes) in
  parse_int (str [28; 53]%nat) = None ∧
  parse_int (str [194; 160; 53; 10]%nat) = Some 5 ∧
  parse_int (str [45; 217; 165; 95; 49]%nat) = Some (-51) ∧
  parse_int "1__0" = None ∧
  parse_int "+ 5" = None ∧
  parse_int (str (repeat 48%nat 4300)) = Some 0 ∧
  parse_int (str (repeat 48%nat 4301)) = None.
Proof. intros str. repeat apply conj; vm_compute; reflexivity. Qed.

(** Reading one coordinate either yields an integer, and then the key
    holds a numeric value, or fails with a malformed-address error. *)
Lemma read_coordinate (p : gmap string value) (k : string) :
  (∃ n, getitem p k ≫= py_int = Ok n ∧ ¬ absent_or_non_numeric p k) ∨
  (∃ e, getitem p k ≫= py_int = Raise e ∧ MalformedAddress e).
Proof.
  unfold getitem, absent_or_non_numeric.
  destruct (p !! k) as [[n|s]|] eqn:Hk; cbn.
  - left. exists n. split; [done|]. intros [?|(s & ? & _)]; congruence.
  - destruct (parse_int s) as [n|] eqn:Hs.
    + left. exists n. split; [done|].
      intros [?|(s' & ? & ?)]; congruence.
    + right. exists ValueError. split; [done|]. by right.
  - right. exists (KeyError k). split; [done|]. left. by exists k.
Qed.

(** C4: on a non-empty parameter mapping in which one of z, x, y is absent
    or not numeric the parser fails with a malformed-address error; on an
    absent or empty mapping it returns [None]. *)
Theorem pathToTile_malformed (p : gmap string value) (k : string) :
  p ≠ ∅ →
  k ∈ ["z"; "x"; "y"] →
  absent_or_non_numeric p k →
  (∃ e, pathToTile (Some p) = Raise e ∧ MalformedAddress e) ∧
  pathToTile None = Ok None ∧
  pathToTile (Some ∅) = Ok None.
Proof.
  intros Hne Hk Hbad. split; [|done].
  unfold pathToTile. rewrite (truthy_nonempty p Hne).
  destruct (read_coordinate p "z") as [(nz & -> & Hz)|(e & -> & He)];
    [|by exists e].
  destruct (read_coordinate p "x") as [(nx & -> & Hx)|(e & -> & He)];
    [|by exists e].
  destruct (read_coordinate p "y") as [(ny & -> & Hy)|(e & -> & He)];
    [|by exists e].
  exfalso. set_unfold in Hk. destruct Hk as [->|[->|[->|[]]]]; tauto.
Qed.

Lemma pathToTile_malformed_witness :
  (∃ e, pathToTile (Some {[ "z" := VStr "9"; "x" := VStr "255" ]}) = Raise e ∧
        MalformedAddress e) ∧
  (∃ e, pathToTile (Some {[ "z" := VStr "9"; "x" := VStr "a"; "y" := VStr "1" ]})
          = Raise e ∧ MalformedAddress e).
Proof.
  split.
  - apply (pathToTile_malformed {[ "z" := VStr "9"; "x" := VStr "255" ]} "y").
    + intros H. apply (f_equal (λ m : gmap string value, m !! "z")) in H.
      vm_compute in H. discriminate.
    + set_solver.
    + left. reflexivity.
  - apply (pathToTile_malformed
             {[ "z" := VStr "9"; "x" := VStr "a"; "y" := VStr "1" ]} "x").
    + intros H. apply (f_equal (λ m : gmap string value, m !! "z")) in H.
      vm_compute in H. discriminate.
    + set_solver.
    + right. exists "a". split; reflexivity.
Defined.

(** ** Envelope projection *)

Lemma int_to_float_small n :
  - 2 ^ 1023 - 1 ≤ n ≤ 2 ^ 1023 + 1 → int_to_float n = Ok (Z2float n).
Proof.
  intros Hn. unfold int_to_float.
  assert (Hb : 2 ^ 1023 + 1 < float_overflow_bound) by reflexivity.
  revert Hn Hb. generalize (2 ^ 1023) float_overflow_bound. intros B F Hn Hb.
  by rewrite (proj2 (Z.ltb_lt (Z.abs n) F)) by lia.
Qed.

Lemma int_to_float_large n :
  2 ^ 1024 ≤ n → int_to_float n = Raise OverflowError.
Proof.
  intros Hn. unfold int_to_float.
  assert (Hb : float_overflow_bound < 2 ^ 1024) by reflexivity.
  revert Hn Hb. generalize (2 ^ 1024) float_overflow_bound. intros B F Hn Hb.
  by rewrite (proj2 (Z.ltb_ge (Z.abs n) F)) by lia.
Qed.

(** The grid size of every zoom level up to 1023 converts to a non-zero
    float. *)
Lemma grid_size_nonzero z :
  0 ≤ z ≤ 1023 → (Z2float (2 ^ z) =? 0)%float = false.
Proof.
  intros Hz. apply negb_true_iff.
  apply (all_below_spec 1024 (λ z, negb (Z2float (2 ^ z) =? 0)%float));
    [by vm_compute|lia].
Qed.

Lemma tile_of_lookup z x y :
  tile_of z x y !! "zoom" = Some (VInt z) ∧
  tile_of z x y !! "x" = Some (VInt x) ∧
  tile_of z x y !! "y" = Some (VInt y) ∧
  tile_of z x y !! "format" = Some (VStr "mvt").
Proof. by vm_compute. Qed.

Lemma bind_lift {A B} (r : result A) (f : A → M B) h :
  (lift r ≫= f) h = match r with Ok a => f a h | Raise e => (Raise e, h) end.
Proof. by destruct r. Qed.

Lemma bind_run {A B} (m : M A) (f : A → M B) h :
  (m ≫= f) h =
    match m h with (Ok a, h') => f a h' | (Raise e, h') => (Raise e, h') end.
Proof. reflexivity. Qed.

Ltac run_bind :=
  match goal with
  | |- context [mbind ?f (lift ?r) ?h] => rewrite (bind_lift r f h)
  | |- context [mbind ?f ?m ?h] => rewrite (bind_run m f h)
  end.

Ltac step := run_bind; cbv beta iota.

Lemma env_at_insert l d E T : env_at (Heap (<[l := d]> E) T) l = d.
Proof. unfold env_at. cbn. by rewrite lookup_insert_eq. Qed.

Lemma table_at_insert l d E T : table_at (Heap E (<[l := d]> T)) l = d.
Proof. unfold table_at. cbn. by rewrite lookup_insert_eq. Qed.

Lemma env_set_allocated l k v d E T :
  env_set l k v (Heap (<[l := d]> E) T) = (Ok tt, Heap (<[l := <[k := v]> d]> E) T).
Proof.
  unfold env_set, env_at. cbn. by rewrite lookup_insert_eq, insert_insert_eq.
Qed.

(** The run of [tileToEnvelope] on a tile of zoom at most 1023: a fresh
    dict holding the envelope of the formula. *)
Lemma tileToEnvelope_run h z x y :
  0 ≤ z ≤ 1023 →
  - 2 ^ 1023 ≤ x ≤ 2 ^ 1023 →
  - 2 ^ 1023 ≤ y ≤ 2 ^ 1023 →
  tileToEnvelope (tile_of z x y) h =
    (Ok (fresh (dom (envelopes h))),
     Heap (<[fresh (dom (envelopes h)) := envelope_dict (envelope_formula z x y)]>
             (envelopes h))
          (tables h)).
Proof.
  intros Hz Hx Hy. destruct (tile_of_lookup z x y) as (Lz & Lx & Ly & _).
  unfold tileToEnvelope.
  rewrite (getitem_lookup _ _ _ Lz), (getitem_lookup _ _ _ Lx),
    (getitem_lookup _ _ _ Ly).
  cbn -[Z.pow Z2float]. rewrite (pow2_nonneg z) by lia.
  rewrite bind_lift, bind_lift. unfold float_truediv.
  rewrite (int_to_float_small (2 ^ z)).
  2:{ assert (2 ^ z ≤ 2 ^ 1023) by (apply Z.pow_le_mono_r; lia).
      assert (0 < 2 ^ z) by (apply Z.pow_pos_nonneg; lia). lia. }
  cbn -[Z.pow Z2float]. rewrite (grid_size_nonzero z Hz).
  rewrite (int_to_float_small x), (int_to_float_small (x + 1)),
    (int_to_float_small y), (int_to_float_small (y + 1)) by lia.
  rewrite bind_run. cbn -[Z.pow Z2float].
  rewrite bind_lift. cbn -[Z.pow Z2float].
  repeat (rewrite bind_run, env_set_allocated, bind_lift).
  rewrite bind_run, env_set_allocated. reflexivity.
Qed.

(** From zoom 1024 on the grid size no longer converts to a float. *)
Lemma tileToEnvelope_overflow h z x y :
  1024 ≤ z → tileToEnvelope (tile_of z x y) h = (Raise OverflowError, h).
Proof.
  intros Hz. destruct (tile_of_lookup z x y) as (Lz & _).
  unfold tileToEnvelope. rewrite (getitem_lookup _ _ _ Lz).
  cbn -[Z.pow Z2float]. rewrite (pow2_nonneg z) by lia.
  rewrite bind_lift, bind_lift. unfold float_truediv.
  rewrite (int_to_float_large (2 ^ z)); [done|].
  apply Z.pow_le_mono_r; lia.
Qed.

Lemma envelope_dict_lookup e :
  envelope_dict e !! "xmin" = Some (xmin e) ∧
  envelope_dict e !! "xmax" = Some (xmax e) ∧
  envelope_dict e !! "ymin" = Some (ymin e) ∧
  envelope_dict e !! "ymax" = Some (ymax e).
Proof. by vm_compute. Qed.

Lemma edge_allocated k l d E T :
  edge k (Ok l, Heap (<[l := d]> E) T) = getitem d k.
Proof. unfold edge, env_at. cbn. by rewrite lookup_insert_eq. Qed.

Lemma valid_coordinate_range z c :
  0 ≤ z ≤ 1023 → 0 ≤ c < 2 ^ z → - 2 ^ 1023 ≤ c - 1 ∧ c + 1 ≤ 2 ^ 1023.
Proof.
  intros Hz Hc. assert (2 ^ z ≤ 2 ^ 1023) by (apply Z.pow_le_mono_r; lia).
  assert (0 < 2 ^ 1023) by (apply Z.pow_pos_nonneg; lia). lia.
Qed.

(** C1 (amended): for a valid tile of zoom at most 1023, [tileToEnvelope]
    returns a new dict that holds the envelope of the formula; the
    envelope of tile (0, 0, 0) is the full world extent on both axes. *)
Theorem tileToEnvelope_formula h z x y :
  0 ≤ z ≤ 1023 →
  0 ≤ x < 2 ^ z →
  0 ≤ y < 2 ^ z →
  let l := fresh (dom (envelopes h)) in
  envelopes h !! l = None ∧
  tileToEnvelope (tile_of z x y) h =
    (Ok l,
     Heap (<[l := envelope_dict (envelope_formula z x y)]> (envelopes h))
          (tables h)) ∧
  envelope_formula 0 0 0 = Envelope worldMin worldMin worldMax worldMax.
Proof.
  intros Hz Hx Hy l. split; [|split].
  - apply not_elem_of_dom, is_fresh.
  - pose proof (valid_coordinate_range z x Hz Hx).
    pose proof (valid_coordinate_range z y Hz Hy).
    apply tileToEnvelope_run; lia.
  - reflexivity.
Qed.

Lemma tileToEnvelope_formula_witness :
  tileToEnvelope (tile_of 9 255 170) (Heap ∅ ∅) =
    (Ok (fresh (dom (∅ : gmap loc (gmap string float)))),
     Heap (<[fresh (dom (∅ : gmap loc (gmap string float))) :=
              envelope_dict (envelope_formula 9 255 170)]> ∅) ∅).
Proof.
  apply (tileToEnvelope_formula (Heap ∅ ∅) 9 255 170); simpl; lia.
Defined.

(** C1, as stated, fails from zoom 1024 on: the tile (1024, 0, 0) is valid
    and [tileToEnvelope] raises [OverflowError] on it. *)
Lemma tileToEnvelope_zoom_1024 :
  tileIsValid (tile_of 1024 0 0) = Ok true ∧
  tileToEnvelope (tile_of 1024 0 0) (Heap ∅ ∅) = (Raise OverflowError, Heap ∅ ∅).
Proof. split; by vm_compute. Qed.

(** C6 (amended): at every zoom from 0 to 1023, the east edge of a tile is
    the west edge of its right neighbour and the north edge of a tile is
    the south edge of the tile above it: both runs return an envelope and
    the two edges are the same float. *)
Theorem adjacent_tiles_share_edges h1 h2 z x y :
  0 ≤ z ≤ 1023 →
  0 ≤ x < 2 ^ z →
  0 ≤ y < 2 ^ z →
  edge "xmax" (tileToEnvelope (tile_of z x y) h1) =
    Ok (xmax (envelope_formula z x y)) ∧
  edge "xmin" (tileToEnvelope (tile_of z (x + 1) y) h2) =
    Ok (xmax (envelope_formula z x y)) ∧
  edge "ymax" (tileToEnvelope (tile_of z x y) h1) =
    Ok (ymax (envelope_formula z x y)) ∧
  edge "ymin" (tileToEnvelope (tile_of z x (y - 1)) h2) =
    Ok (ymax (envelope_formula z x y)).
Proof.
  intros Hz Hx Hy.
  pose proof (valid_coordinate_range z x Hz Hx).
  pose proof (valid_coordinate_range z y Hz Hy).
  rewrite (tileToEnvelope_run h1 z x y), (tileToEnvelope_run h2 z (x + 1) y),
    (tileToEnvelope_run h2 z x (y - 1)) by lia.
  rewrite !edge_allocated.
  destruct (envelope_dict_lookup (envelope_formula z x y)) as (_ & E1 & _ & E2).
  destruct (envelope_dict_lookup (envelope_formula z (x + 1) y)) as (E3 & _).
  destruct (envelope_dict_lookup (envelope_formula z x (y - 1)))
    as (_ & _ & E4 & _).
  rewrite (getitem_lookup _ _ _ E1), (getitem_lookup _ _ _ E2),
    (getitem_lookup _ _ _ E3), (getitem_lookup _ _ _ E4).
  cbn [xmin xmax ymin ymax envelope_formula]. rewrite Z.sub_add. done.
Qed.

Lemma adjacent_tiles_share_edges_witness :
  edge "xmax" (tileToEnvelope (tile_of 9 255 170) (Heap ∅ ∅)) =
    Ok (xmax (envelope_formula 9 255 170)) ∧
  edge "xmin" (tileToEnvelope (tile_of 9 256 170) (Heap ∅ ∅)) =
    Ok (xmax (envelope_formula 9 255 170)) ∧
  edge "ymax" (tileToEnvelope (tile_of 9 255 170) (Heap ∅ ∅)) =
    Ok (ymax (envelope_formula 9 255 170)) ∧
  edge "ymin" (tileToEnvelope (tile_of 9 255 169) (Heap ∅ ∅)) =
    Ok (ymax (envelope_formula 9 255 170)).
Proof.
  apply (adjacent_tiles_share_edges (Heap ∅ ∅) (Heap ∅ ∅) 9 255 170); lia.
Defined.

(** C6, as stated, fails from zoom 1024 on: the neighbours (1024, 0, 0) and
    (1024, 1, 0), and (1024, 0, 1) above (1024, 0, 0), are valid tiles, and
    [tileToEnvelope] raises [OverflowError] on each of them, so that they
    have no edges to share. *)
Lemma adjacent_tiles_zoom_1024 :
  tileIsValid (tile_of 1024 0 0) = Ok true ∧
  tileIsValid (tile_of 1024 1 0) = Ok true ∧
  tileIsValid (tile_of 1024 0 1) = Ok true ∧
  edge "xmax" (tileToEnvelope (tile_of 1024 0 0) (Heap ∅ ∅)) = Raise OverflowError ∧
  edge "xmin" (tileToEnvelope (tile_of 1024 1 0) (Heap ∅ ∅)) = Raise OverflowError ∧
  edge "ymax" (tileToEnvelope (tile_of 1024 0 1) (Heap ∅ ∅)) = Raise OverflowError ∧
  edge "ymin" (tileToEnvelope (tile_of 1024 0 0) (Heap ∅ ∅)) = Raise OverflowError.
Proof. repeat split; by vm_compute. Qed.

(** A run of [tileToEnvelope] stores [envelope_of] in a fresh dict, or
    fails with the exception of [envelope_of]; the table dicts are left
    alone. *)
Lemma tileToEnvelope_result tile g :
  match envelope_of tile with
  | Ok d =>
      tileToEnvelope tile g =
        (Ok (fresh (dom (envelopes g))),
         Heap (<[fresh (dom (envelopes g)) := d]> (envelopes g)) (tables g))
  | Raise e =>
      fst (tileToEnvelope tile g) = Raise e ∧
      tables (snd (tileToEnvelope tile g)) = tables g
  end.
Proof.
  unfold tileToEnvelope, envelope_of. cbv zeta.
  destruct (getitem tile "zoom" ≫= py_pow2) as [wts|e];
    cbn [mbind result_bind]; step; [|done].
  match goal with |- context [float_truediv ?s wts] =>
    destruct (float_truediv s wts) as [tms|e] end;
    cbn [mbind result_bind]; step; [|done].
  step. unfold new_env. cbv beta iota zeta.
  destruct (getitem tile "x" ≫= float_mul tms) as [w|e];
    cbn [mbind result_bind]; step; [|done].
  step. rewrite env_set_allocated. cbv beta iota.
  destruct (x1 ← getitem tile "x" ≫= py_succ; float_mul tms x1) as [ea|e];
    cbn [mbind result_bind]; step; [|done].
  step. rewrite env_set_allocated. cbv beta iota.
  destruct (y1 ← getitem tile "y" ≫= py_succ; float_mul tms y1) as [so|e];
    cbn [mbind result_bind]; step; [|done].
  step. rewrite env_set_allocated. cbv beta iota.
  destruct (getitem tile "y" ≫= float_mul tms) as [no|e];
    cbn [mbind result_bind]; step; [|done].
  step. rewrite env_set_allocated. cbv beta iota. reflexivity.
Qed.

(** ** Formatting *)

Lemma format_literal {V} (render : V → string) kw lit rest :
  no_brace lit = true →
  format_from render kw (lit ++ rest) None =
    (λ s, lit ++ s)%string <$> format_from render kw rest None.
Proof.
  induction lit as [|c lit IH]; intros Hlit.
  - change ("" ++ rest)%string with rest.
    destruct (format_from render kw rest None); reflexivity.
  - cbn in Hlit. apply andb_true_iff in Hlit as [Hc Hlit].
    apply andb_true_iff in Hc as [Ho Hc].
    apply negb_true_iff in Ho, Hc.
    change (String c lit ++ rest)%string with (String c (lit ++ rest)%string).
    cbn [format_from]. rewrite Ho, Hc, (IH Hlit).
    destruct (format_from render kw rest None); reflexivity.
Qed.

Lemma append_empty_r (s : string) : (s ++ "")%string = s.
Proof.
  induction s as [|a s IH]; [done|].
  change (String a s ++ "")%string with (String a (s ++ "")%string). by rewrite IH.
Qed.

Lemma append_cons_assoc (s : string) c (r : string) :
  ((s ++ String c "") ++ r)%string = (s ++ String c r)%string.
Proof.
  induction s as [|a s IH]; [done|].
  change ((String a s ++ String c "") ++ r)%string
    with (String a ((s ++ String c "") ++ r)%string).
  by rewrite IH.
Qed.

Lemma format_name {V} (render : V → string) kw name rest acc :
  no_brace name = true →
  format_from render kw (name ++ String "}" rest) (Some acc) =
    v ← getitem kw (acc ++ name)%string;
    tail ← format_from render kw rest None;
    Ok (render v ++ tail)%string.
Proof.
  revert acc. induction name as [|c name IH]; intros acc Hname.
  - change ("" ++ String "}" rest)%string with (String "}" rest).
    by rewrite append_empty_r.
  - cbn in Hname. apply andb_true_iff in Hname as [Hc Hname].
    apply andb_true_iff in Hc as [Ho Hc].
    apply negb_true_iff in Ho, Hc.
    change (String c name ++ String "}" rest)%string
      with (String c (name ++ String "}" rest)%string).
    cbn [format_from]. rewrite Ho, Hc, (IH _ Hname).
    by rewrite append_cons_assoc.
Qed.

(** One literal run followed by one replacement field. *)
Lemma format_field {V} (render : V → string) kw lit name rest v :
  no_brace lit = true →
  no_brace name = true →
  kw !! name = Some v →
  format_from render kw (lit ++ String "{" (name ++ String "}" rest)) None =
    (λ s, lit ++ render v ++ s)%string <$> format_from render kw rest None.
Proof.
  intros Hlit Hname Hv. rewrite (format_literal render kw lit _ Hlit).
  assert (format_from render kw (String "{" (name ++ String "}" rest)) None =
          format_from render kw (name ++ String "}" rest) (Some EmptyString)) as ->.
  { destruct name as [|c name]; [done|].
    cbn in Hname. apply andb_true_iff in Hname as [Hc _].
    apply andb_true_iff in Hc as [Ho _]. apply negb_true_iff in Ho.
    change (String c name ++ String "}" rest)%string
      with (String c (name ++ String "}" rest)%string).
    destruct c as [[] [] [] [] [] [] [] []]; try done. }
  rewrite (format_name render kw name rest EmptyString Hname).
  change ("" ++ name)%string with name.
  rewrite (getitem_lookup _ _ _ Hv).
  destruct (format_from render kw rest None); reflexivity.
Qed.

Lemma format_end {V} (render : V → string) kw lit :
  no_brace lit = true → format_from render kw lit None = Ok lit.
Proof.
  intros Hlit. pose proof (format_literal render kw lit EmptyString Hlit) as H.
  rewrite append_empty_r in H. rewrite H.
  change (format_from render kw "" None) with (Ok "" : result string).
  change (Ok (lit ++ "")%string = Ok lit). by rewrite append_empty_r.
Qed.

(** ** Densification and query construction *)

Section HandlerProperties.

Variable float_str : float → string.
Variable execute_statement : string → result string.
Variable json_dumps : string → string.
Variable b64encode : string → string.

(** The run of the densifier: the envelope dict is updated in place. *)
Lemma envelopeToBoundsSQL_run h env :
  envelopeToBoundsSQL float_str env h =
    match segment_size (env_at h env) with
    | Ok seg =>
        let d' := <["segSize" := seg]> (env_at h env) in
        (str_format float_str bounds_template d',
         Heap (<[env := d']> (envelopes h)) (tables h))
    | Raise e => (Raise e, h)
    end.
Proof.
  unfold envelopeToBoundsSQL, segment_size. cbv zeta.
  run_bind. unfold env_get at 1.
  destruct (getitem (env_at h env) "xmax") as [x1|e]; [|done].
  run_bind. unfold env_get at 1.
  destruct (getitem (env_at h env) "xmin") as [x0|e]; [|done].
  run_bind. cbn [mbind result_bind].
  destruct (float_truediv (x1 - x0) (NInt 4)) as [seg|e]; [|done].
  run_bind. unfold env_set at 1. run_bind.
  unfold env_items at 1. by rewrite env_at_insert.
Qed.

(** The run of the query builder: it works on a fresh copy of [TABLE]. *)
Lemma envelopeToSQL_run h env :
  envelopeToSQL float_str env h =
    let l := fresh (dom (tables h)) in
    let tbl := table_at h TABLE in
    match segment_size (env_at h env) with
    | Ok seg =>
        let d' := <["segSize" := seg]> (env_at h env) in
        match str_format float_str bounds_template d' with
        | Ok b =>
            (str_format id query_template (<["env" := b]> tbl),
             Heap (<[env := d']> (envelopes h))
                  (<[l := <["env" := b]> tbl]> (tables h)))
        | Raise e =>
            (Raise e, Heap (<[env := d']> (envelopes h)) (<[l := tbl]> (tables h)))
        end
    | Raise e => (Raise e, Heap (envelopes h) (<[l := tbl]> (tables h)))
    end.
Proof.
  unfold envelopeToSQL. cbv zeta.
  run_bind. unfold table_copy at 1. run_bind.
  rewrite envelopeToBoundsSQL_run.
  change (env_at (Heap (envelopes h) ?T) env) with (env_at h env).
  destruct (segment_size (env_at h env)) as [seg|e]; [|reflexivity].
  cbv zeta. cbn [envelopes tables].
  destruct (str_format float_str bounds_template _) as [b|e]; [|reflexivity].
  run_bind. unfold table_set at 1. cbn [envelopes tables].
  rewrite table_at_insert, insert_insert_eq.
  run_bind. unfold table_items at 1. rewrite table_at_insert. reflexivity.
Qed.

Lemma envelopeToSQL_result h env :
  fst (envelopeToSQL float_str env h) =
    query_of float_str (env_at h env) (table_at h TABLE).
Proof.
  rewrite envelopeToSQL_run. unfold query_of, bounds_of. cbv zeta.
  destruct (segment_size (env_at h env)) as [seg|e]; [|reflexivity].
  cbn [mbind result_bind].
  destruct (str_format float_str bounds_template _) as [b|e];
    cbn [fst mbind result_bind]; reflexivity.
Qed.

Lemma bounds_text (kw : gmap string float) x0 y0 x1 y1 seg :
  kw !! "xmin" = Some x0 →
  kw !! "ymin" = Some y0 →
  kw !! "xmax" = Some x1 →
  kw !! "ymax" = Some y1 →
  kw !! "segSize" = Some seg →
  str_format float_str bounds_template kw =
  Ok ("ST_Segmentize(ST_MakeEnvelope(" ++ float_str x0 ++ ", " ++ float_str y0
      ++ ", " ++ float_str x1 ++ ", " ++ float_str y1 ++ ", 3857),"
      ++ float_str seg ++ ")")%string.
Proof.
  intros Hx0 Hy0 Hx1 Hy1 Hs. unfold str_format, bounds_template.
  etrans; [exact (format_field float_str kw "ST_Segmentize(ST_MakeEnvelope(" "xmin"
             ", {ymin}, {xmax}, {ymax}, 3857),{segSize})" x0 eq_refl eq_refl Hx0)|].
  etrans; [apply (f_equal (fmap _));
           exact (format_field float_str kw ", " "ymin"
             ", {xmax}, {ymax}, 3857),{segSize})" y0 eq_refl eq_refl Hy0)|].
  etrans; [do 2 apply (f_equal (fmap _));
           exact (format_field float_str kw ", " "xmax"
             ", {ymax}, 3857),{segSize})" x1 eq_refl eq_refl Hx1)|].
  etrans; [do 3 apply (f_equal (fmap _));
           exact (format_field float_str kw ", " "ymax"
             ", 3857),{segSize})" y1 eq_refl eq_refl Hy1)|].
  etrans; [do 4 apply (f_equal (fmap _));
           exact (format_field float_str kw ", 3857)," "segSize" ")" seg
                    eq_refl eq_refl Hs)|].
  rewrite (format_end float_str kw ")" eq_refl). reflexivity.
Qed.

Lemma segment_size_lookup (d : gmap string float) x0 x1 :
  d !! "xmin" = Some x0 →
  d !! "xmax" = Some x1 →
  segment_size d = Ok ((x1 - x0) / 4)%float.
Proof.
  intros H0 H1. unfold segment_size.
  rewrite (getitem_lookup _ _ _ H0), (getitem_lookup _ _ _ H1). reflexivity.
Qed.

Lemma env_at_allocated h env d : envelopes h !! env = Some d → env_at h env = d.
Proof. intros H. unfold env_at. by rewrite H. Qed.

(** C5: the densifier stores the segment size [(xmax - xmin) / 4] in the
    envelope and writes it into the bounds expression. *)
Theorem segSize_exact h env d x0 y0 x1 y1 :
  envelopes h !! env = Some d →
  d !! "xmin" = Some x0 →
  d !! "ymin" = Some y0 →
  d !! "xmax" = Some x1 →
  d !! "ymax" = Some y1 →
  let seg := ((x1 - x0) / 4)%float in
  env_at (snd (envelopeToBoundsSQL float_str env h)) env !! "segSize" = Some seg ∧
  fst (envelopeToBoundsSQL float_str env h) =
    Ok ("ST_Segmentize(ST_MakeEnvelope(" ++ float_str x0 ++ ", " ++ float_str y0
        ++ ", " ++ float_str x1 ++ ", " ++ float_str y1 ++ ", 3857),"
        ++ float_str seg ++ ")")%string.
Proof.
  intros Hd Hx0 Hy0 Hx1 Hy1 seg. rewrite envelopeToBoundsSQL_run.
  rewrite (env_at_allocated h env d Hd), (segment_size_lookup d x0 x1 Hx0 Hx1).
  cbv zeta. cbn [fst snd]. rewrite env_at_insert. split.
  - apply lookup_insert_eq.
  - apply bounds_text; by rewrite ?lookup_insert_eq, ?lookup_insert_ne.
Qed.

(** C9 (amended): the densifier updates its input dict in place, adding
    [segSize] and leaving every other key and every other dict as they
    were; query construction changes the envelopes no further and works on
    a fresh copy of [TABLE], so that [TABLE] and every other table dict
    already in the heap stay as they were. *)
Theorem densifier_updates_in_place h env d x0 x1 :
  envelopes h !! env = Some d →
  d !! "xmin" = Some x0 →
  d !! "xmax" = Some x1 →
  is_Some (tables h !! TABLE) →
  let d' := <["segSize" := ((x1 - x0) / 4)%float]> d in
  let h1 := snd (envelopeToBoundsSQL float_str env h) in
  let h2 := snd (envelopeToSQL float_str env h) in
  (∀ k, k ≠ "segSize" → d' !! k = d !! k) ∧
  h1 = Heap (<[env := d']> (envelopes h)) (tables h) ∧
  envelopes h2 = <[env := d']> (envelopes h) ∧
  (∀ l, is_Some (tables h !! l) → tables h2 !! l = tables h !! l) ∧
  table_at h2 TABLE = table_at h TABLE.
Proof.
  intros Hd H0 H1 HT d' h1 h2.
  assert (Hfresh : ∀ l, is_Some (tables h !! l) → fresh (dom (tables h)) ≠ l).
  { intros l Hl Heq. apply (is_fresh (dom (tables h))).
    rewrite Heq. by apply elem_of_dom. }
  assert (Htables : ∀ l, is_Some (tables h !! l) → tables h2 !! l = tables h !! l).
  { intros l Hl. subst h2. rewrite envelopeToSQL_run. cbv zeta.
    destruct (segment_size _); [destruct (str_format float_str _ _)|];
      cbn [snd tables]; by rewrite lookup_insert_ne by by apply Hfresh. }
  split; [|split; [|split; [|split]]].
  - intros k Hk. by apply lookup_insert_ne.
  - subst h1. rewrite envelopeToBoundsSQL_run.
    by rewrite (env_at_allocated h env d Hd), (segment_size_lookup d x0 x1 H0 H1).
  - subst h2. rewrite envelopeToSQL_run.
    rewrite (env_at_allocated h env d Hd), (segment_size_lookup d x0 x1 H0 H1).
    cbv zeta. by destruct (str_format float_str _ _).
  - exact Htables.
  - unfold table_at. by rewrite (Htables TABLE HT).
Qed.

(** C8: the query text built for a tile depends only on the tile and on
    the contents of [TABLE]: two runs from heaps that agree on [TABLE]
    return the same text, or fail with the same exception. *)
Theorem query_deterministic tile h1 h2 :
  table_at h1 TABLE = table_at h2 TABLE →
  fst ((tileToEnvelope tile ≫= envelopeToSQL float_str) h1) =
    fst ((tileToEnvelope tile ≫= envelopeToSQL float_str) h2).
Proof.
  intros HT. rewrite !bind_run.
  pose proof (tileToEnvelope_result tile h1) as R1.
  pose proof (tileToEnvelope_result tile h2) as R2.
  destruct (envelope_of tile) as [d|e].
  - rewrite R1, R2, !envelopeToSQL_result, !env_at_insert.
    change (table_at (Heap ?E (tables h1)) TABLE) with (table_at h1 TABLE).
    change (table_at (Heap ?E (tables h2)) TABLE) with (table_at h2 TABLE).
    by rewrite HT.
  - destruct R1 as [R1 _], R2 as [R2 _].
    destruct (tileToEnvelope tile h1) as [[l1|e1] g1],
      (tileToEnvelope tile h2) as [[l2|e2] g2];
      cbn [fst] in R1, R2; cbv beta iota; cbn [fst]; congruence.
Qed.

(** A request whose tile address is absent or invalid makes the handler
    raise [NameError] while it builds the error response; the heap is
    untouched, no envelope or query was built. *)
Lemma lambda_handler_rejects event params h :
  event !! "pathParameters" = Some params →
  (pathToTile params = Ok None ∨
   ∃ tile, pathToTile params = Ok (Some tile) ∧ tileIsValid tile = Ok false) →
  lambda_handler float_str execute_statement json_dumps b64encode event h =
    (Raise (NameError "self"), h).
Proof.
  intros He Hbad. unfold lambda_handler. cbv zeta.
  rewrite (getitem_lookup _ _ _ He). step.
  destruct Hbad as [->|(tile & -> & Hv)]; step; [by step|].
  rewrite Hv. destruct (truthy tile); by repeat step.
Qed.

End HandlerProperties.

Lemma segSize_exact_witness :
  env_at (snd (envelopeToBoundsSQL (λ _, "f") 1%positive example_heap)) 1%positive
    !! "segSize" = Some ((worldMax - worldMin) / 4)%float ∧
  fst (envelopeToBoundsSQL (λ _, "f") 1%positive example_heap) =
    Ok "ST_Segmentize(ST_MakeEnvelope(f, f, f, f, 3857),f)".
Proof.
  apply (segSize_exact (λ _, "f") example_heap 1%positive
           (envelope_dict (envelope_formula 0 0 0))
           worldMin worldMin worldMax worldMax); vm_compute; reflexivity.
Defined.

Lemma densifier_updates_in_place_witness :
  snd (envelopeToBoundsSQL (λ _, "f") 1%positive example_heap) =
    Heap (<[1%positive := <["segSize" := ((worldMax - worldMin) / 4)%float]>
                            (envelope_dict (envelope_formula 0 0 0))]>
            (envelopes example_heap))
         (tables example_heap) ∧
  table_at (snd (envelopeToSQL (λ _, "f") 1%positive example_heap)) TABLE =
    table_at example_heap TABLE.
Proof.
  destruct (densifier_updates_in_place (λ _, "f") example_heap 1%positive
              (envelope_dict (envelope_formula 0 0 0)) worldMin worldMax)
    as (_ & H1 & _ & _ & H2); [vm_compute; reflexivity..| |exact (conj H1 H2)].
  exists (table_spec "roads" "4326"). vm_compute. reflexivity.
Defined.

(** C9, as stated, fails for the densifier: it adds the key [segSize] to
    the dict it is given and allocates no new envelope. *)
Lemma densifier_mutates_input :
  env_at (snd (envelopeToBoundsSQL (λ _, "f") 1%positive example_heap)) 1%positive
    ≠ env_at example_heap 1%positive ∧
  dom (envelopes (snd (envelopeToBoundsSQL (λ _, "f") 1%positive example_heap))) =
    dom (envelopes example_heap).
Proof.
  split.
  - intros H. apply (f_equal (λ d : gmap string float, d !! "segSize")) in H.
    vm_compute in H. discriminate.
  - vm_compute. reflexivity.
Qed.

Lemma query_deterministic_witness :
  fst ((tileToEnvelope (tile_of 9 255 170) ≫= envelopeToSQL (λ _, "f"))
         (module_heap "roads" "4326")) =
  fst ((tileToEnvelope (tile_of 9 255 170) ≫= envelopeToSQL (λ _, "f"))
         example_heap).
Proof.
  apply (query_deterministic (λ _, "f") (tile_of 9 255 170)
           (module_heap "roads" "4326") example_heap).
  vm_compute. reflexivity.
Defined.

(** C3: the request for the invalid tile path [/2/4/0] is not answered with
    the 400 response: the handler raises [NameError] on [self.path]. *)
Theorem lambda_handler_invalid_tile float_str execute_statement json_dumps b64encode :
  pathToTile (Some {[ "z" := VStr "2"; "x" := VStr "4"; "y" := VStr "0" ]}) =
    Ok (Some (tile_of 2 4 0)) ∧
  tileIsValid (tile_of 2 4 0) = Ok false ∧
  lambda_handler float_str execute_statement json_dumps b64encode
    example_event (module_heap "roads" "4326") =
    (Raise (NameError "self"), module_heap "roads" "4326").
Proof.
  split; [vm_compute; reflexivity|]. split; [vm_compute; reflexivity|].
  apply (lambda_handler_rejects _ _ _ _ example_event
           (Some {[ "z" := VStr "2"; "x" := VStr "4"; "y" := VStr "0" ]}));
    [vm_compute; reflexivity|].
  right. exists (tile_of 2 4 0). split; vm_compute; reflexivity.
Qed.

(** ** Side lengths *)


Lemma two_pow_pos n : 0 ≤ n → 0 < 2 ^ n.
Proof. intros. apply Z.pow_pos_nonneg; lia. Qed.

Lemma two_pow_le a b : 0 ≤ a ≤ b → 2 ^ a ≤ 2 ^ b.
Proof. intros. apply Z.pow_le_mono_r; lia. Qed.

Lemma two_pow_lt a b : 0 ≤ a < b → 2 ^ a < 2 ^ b.
Proof. intros. apply Z.pow_lt_mono_r; lia. Qed.

Lemma two_pow_lt_inv a b : 0 ≤ b → 2 ^ a < 2 ^ b → a < b.
Proof.
  intros Hb H. destruct (Z.lt_ge_cases a b) as [|Hge]; [done|].
  pose proof (two_pow_le b a ltac:(lia)). lia.
Qed.

Lemma two_pow_add a b : 0 ≤ a → 0 ≤ b → 2 ^ (a + b) = 2 ^ a * 2 ^ b.
Proof. intros. apply Z.pow_add_r; lia. Qed.

Lemma digits2_bounds p :
  2 ^ (Z.pos (digits2_pos p) - 1) ≤ Z.pos p < 2 ^ Z.pos (digits2_pos p).
Proof.
  induction p as [p IH|p IH|]; cbn [digits2_pos].
  - rewrite Pos2Z.inj_succ.
    replace (Z.succ (Z.pos (digits2_pos p)) - 1)
      with (Z.succ (Z.pos (digits2_pos p) - 1)) by lia.
    rewrite !Z.pow_succ_r by lia. lia.
  - rewrite Pos2Z.inj_succ.
    replace (Z.succ (Z.pos (digits2_pos p)) - 1)
      with (Z.succ (Z.pos (digits2_pos p) - 1)) by lia.
    rewrite !Z.pow_succ_r by lia. lia.
  - cbn. lia.
Qed.

Lemma digits2_unique p d :
  2 ^ (d - 1) ≤ Z.pos p < 2 ^ d → Z.pos (digits2_pos p) = d.
Proof.
  intros [Hlo Hhi]. pose proof (digits2_bounds p) as [Dlo Dhi].
  assert (0 < d).
  { destruct (Z.lt_ge_cases 0 d); [done|].
    destruct (Z.eq_dec d 0) as [->|]; [cbn in Hhi; lia|].
    rewrite (Z.pow_neg_r 2 d) in Hhi by lia. lia. }
  assert (Z.pos (digits2_pos p) - 1 < d) by (apply two_pow_lt_inv; lia).
  assert (d - 1 < Z.pos (digits2_pos p)) by (apply two_pow_lt_inv; lia).
  lia.
Qed.

Lemma shr_1_shr_n mrs : 0 ≤ shr_m mrs → shr_1 mrs = shr_n 1 mrs.
Proof.
  destruct mrs as [m r s]. cbn [shr_m]. intros Hm. unfold shr_n. cbn [shr_m shr_r shr_s].
  change (2 ^ (1 - 1)) with 1. rewrite Z.mod_1_r. cbn [Z.eqb negb].
  rewrite orb_false_r. change (1 - 1) with 0. rewrite Z.bit0_odd.
  change (2 ^ 1) with 2. rewrite <- Z.div2_div.
  destruct m as [|[p|p|]|p]; try done; lia.
Qed.

Lemma shr_n_nonneg n mrs : 0 ≤ n → 0 ≤ shr_m mrs → 0 ≤ shr_m (shr_n n mrs).
Proof.
  intros Hn Hm. cbn. apply Z.div_pos; [done|by apply two_pow_pos].
Qed.

Lemma mod_pow2_split m a b :
  0 ≤ m → 1 ≤ a → 1 ≤ b →
  (m mod 2 ^ (a + b - 1) =? 0) =
    negb (Z.testbit m (a - 1)) && (m mod 2 ^ (a - 1) =? 0)
    && ((m / 2 ^ a) mod 2 ^ (b - 1) =? 0).
Proof.
  intros Hm Ha Hb.
  replace (a + b - 1) with (a + (b - 1)) by lia.
  rewrite two_pow_add, Z.rem_mul_r by (try apply Z.pow_nonzero; lia).
  replace a with ((a - 1) + 1) at 1 2 by lia.
  rewrite (two_pow_add (a - 1) 1), Z.rem_mul_r by (try apply Z.pow_nonzero; lia).
  change (2 ^ 1) with 2. replace (a - 1 + 1) with a by lia.
  pose proof (two_pow_pos (a - 1) ltac:(lia)).
  pose proof (two_pow_pos (b - 1) ltac:(lia)).
  pose proof (Z.mod_pos_bound m (2 ^ (a - 1)) ltac:(lia)).
  pose proof (Z.mod_pos_bound (m / 2 ^ a) (2 ^ (b - 1)) ltac:(lia)).
  destruct (Z.testbit m (a - 1)) eqn:Hbit;
    [apply Z.testbit_true in Hbit; [|lia]|apply Z.testbit_false in Hbit; [|lia]];
    rewrite Hbit;
    destruct (Z.eqb_spec (m mod 2 ^ (a - 1)) 0) as [E2|E2];
    destruct (Z.eqb_spec ((m / 2 ^ a) mod 2 ^ (b - 1)) 0) as [E3|E3];
    cbn; (apply Z.eqb_eq || apply Z.eqb_neq); nia.
Qed.

Lemma shr_n_add a b mrs :
  1 ≤ a → 1 ≤ b → 0 ≤ shr_m mrs → shr_n b (shr_n a mrs) = shr_n (a + b) mrs.
Proof.
  intros Ha Hb Hm. destruct mrs as [m r s]. cbn [shr_m] in Hm.
  unfold shr_n. cbn [shr_m shr_r shr_s]. f_equal.
  - rewrite Z.div_div, <- two_pow_add by (try apply two_pow_pos; lia). done.
  - rewrite Z.div_pow2_bits by lia. f_equal. lia.
  - rewrite (mod_pow2_split m a b) by lia.
    destruct (Z.testbit m (a - 1)), r, s, (m mod 2 ^ (a - 1) =? 0),
      ((m / 2 ^ a) mod 2 ^ (b - 1) =? 0); done.
Qed.

Lemma iter_shr_1 p mrs :
  0 ≤ shr_m mrs → SpecFloat.iter_pos shr_1 p mrs = shr_n (Z.pos p) mrs.
Proof.
  revert mrs. induction p as [p IH|p IH|]; intros mrs Hm; cbn [SpecFloat.iter_pos].
  - rewrite (shr_1_shr_n mrs Hm).
    rewrite (IH (shr_n 1 mrs)) by (apply shr_n_nonneg; lia).
    rewrite (IH (shr_n (Z.pos p) (shr_n 1 mrs)))
      by (apply shr_n_nonneg; [lia|apply shr_n_nonneg; lia]).
    rewrite !shr_n_add by (try apply shr_n_nonneg; lia).
    f_equal. lia.
  - rewrite (IH mrs) by done.
    rewrite (IH (shr_n (Z.pos p) mrs)) by (apply shr_n_nonneg; lia).
    rewrite shr_n_add by lia. f_equal. lia.
  - by apply shr_1_shr_n.
Qed.

(** Rounding to nearest, ties to even, of a mantissa that loses its [n]
    low bits. *)
Lemma round_shift mx n :
  0 < mx → 1 ≤ n →
  let mrs := shr_n n {| shr_m := mx; shr_r := false; shr_s := false |} in
  let mr := round_nearest_even (shr_m mrs) (loc_of_shr_record mrs) in
  mx / 2 ^ n ≤ mr ≤ mx / 2 ^ n + 1 ∧
  2 * Z.abs (mr * 2 ^ n - mx) ≤ 2 ^ n ∧
  (mx mod 2 ^ n = 0 → mr * 2 ^ n = mx).
Proof.
  intros Hmx Hn mrs mr. subst mr mrs. unfold shr_n. cbn [shr_m shr_r shr_s orb].
  pose proof (two_pow_pos (n - 1) ltac:(lia)) as HP.
  assert (Hpow : 2 ^ n = 2 * 2 ^ (n - 1)).
  { replace n with (1 + (n - 1)) at 1 by lia. by rewrite two_pow_add by lia. }
  assert (Hq : mx / 2 ^ n = mx / 2 ^ (n - 1) / 2).
  { rewrite Z.div_div by lia. f_equal. lia. }
  assert (Hrem : mx mod 2 ^ n = 2 ^ (n - 1) * ((mx / 2 ^ (n - 1)) mod 2)
                                + mx mod 2 ^ (n - 1)).
  { rewrite Hpow, (Z.mul_comm 2), Z.rem_mul_r by lia. lia. }
  pose proof (Z.div_mod mx (2 ^ (n - 1)) ltac:(lia)) as Hdm.
  pose proof (Z.mod_pos_bound mx (2 ^ (n - 1)) ltac:(lia)) as Hlow.
  pose proof (Z.div_mod (mx / 2 ^ (n - 1)) 2 ltac:(lia)) as Hh.
  rewrite Hrem, Hq, Hpow. clear Hq Hrem Hpow.
  assert (Hbit : (mx / 2 ^ (n - 1)) mod 2 =
                 if Z.testbit mx (n - 1) then 1 else 0).
  { destruct (Z.testbit mx (n - 1)) eqn:Hbit.
    - apply Z.testbit_true in Hbit; lia.
    - apply Z.testbit_false in Hbit; lia. }
  set (P := 2 ^ (n - 1)) in *. set (h := mx / P) in *.
  set (low := mx mod P) in *. set (q := h / 2) in *.
  clearbody P h low q. rewrite Hbit in *. clear Hbit.
  destruct (Z.testbit mx (n - 1)), (Z.eqb_spec low 0) as [E|E];
    cbn [negb loc_of_shr_record round_nearest_even];
    try destruct (Z.even q); (split; [lia|]); split; nia.
Qed.

Lemma fexp_normal e : -1021 ≤ e → fexp prec emax e = e - 53.
Proof. intros He. unfold fexp, SpecFloat.emin, prec, emax. lia. Qed.

Lemma Zdigits2_unique m d :
  2 ^ (d - 1) ≤ m < 2 ^ d → 0 < m → Zdigits2 m = d.
Proof.
  intros Hm Hpos. destruct m as [|p|p]; [lia| |lia]. cbn. by apply digits2_unique.
Qed.

(** Rounding of a mantissa of at least 53 digits, in the range of the
    normal numbers: the result is normal, within half a unit in the last
    place, and exact when the bits dropped are zero. *)
Lemma binary_round_aux_spec sx mx ex :
  let d := Z.pos (digits2_pos mx) in
  53 ≤ d → -1021 ≤ d + ex → d + ex ≤ 1023 →
  ∃ m' e',
    binary_round_aux prec emax sx (Z.pos mx) ex loc_Exact = S754_finite sx m' e' ∧
    2 ^ 52 ≤ Z.pos m' < 2 ^ 53 ∧
    d + ex - 53 ≤ e' ≤ d + ex - 52 ∧
    2 * Z.abs (Z.pos m' * 2 ^ (e' - ex) - Z.pos mx) ≤ 2 ^ (e' - ex) ∧
    (Z.pos mx mod 2 ^ (d - 53) = 0 → Z.pos m' * 2 ^ (e' - ex) = Z.pos mx).
Proof.
  intros d Hd Hlo Hhi. pose proof (digits2_bounds mx) as Hmx. fold d in Hmx.
  unfold binary_round_aux, shr_fexp. cbn [Zdigits2]. fold d.
  rewrite (fexp_normal (d + ex)) by lia.
  replace (d + ex - 53 - ex) with (d - 53) by lia.
  destruct (d - 53) as [|p|p] eqn:Hn; [| |lia].
  - (* no bit is dropped *)
    assert (d = 53) as Hd53 by lia. rewrite Hd53 in *.
    cbn [shr shr_record_of_loc shr_m loc_of_shr_record round_nearest_even Zdigits2].
    fold d. rewrite Hd53, (fexp_normal (53 + ex)) by lia.
    replace (53 + ex - 53 - ex) with 0 by lia. cbn [shr shr_m shr_record_of_loc].
    assert ((ex <=? emax - prec) = true) as -> by (apply Z.leb_le; unfold emax, prec; lia).
    exists mx, ex. rewrite Z.sub_diag. change (2 ^ 0) with 1.
    split; [done|]. split; [done|]. split; [lia|]. split; lia.
  - (* [Z.pos p] bits are dropped *)
    cbn [shr shr_record_of_loc].
    rewrite (iter_shr_1 p) by (cbn; lia).
    destruct (round_shift (Z.pos mx) (Z.pos p) ltac:(lia) ltac:(lia))
      as (Hq & Herr & Hexact).
    cbv zeta in Hq, Herr, Hexact.
    set (mr := round_nearest_even _ _) in *. clearbody mr.
    assert (Hpow : 2 ^ d = 2 ^ 53 * 2 ^ Z.pos p).
    { rewrite <- two_pow_add by lia. f_equal. lia. }
    assert (Hpow' : 2 ^ (d - 1) = 2 ^ 52 * 2 ^ Z.pos p).
    { rewrite <- two_pow_add by lia. f_equal. lia. }
    pose proof (two_pow_pos (Z.pos p) ltac:(lia)) as HP.
    assert (Hqb : 2 ^ 52 ≤ Z.pos mx / 2 ^ Z.pos p < 2 ^ 53).
    { split.
      - apply Z.div_le_lower_bound; lia.
      - apply Z.div_lt_upper_bound; lia. }
    destruct (Z.eq_dec mr (2 ^ 53)) as [Hcarry|Hcarry].
    + (* the rounded mantissa has 54 digits *)
      rewrite Hcarry in *.
      rewrite (Zdigits2_unique (2 ^ 53) 54) by (cbn; lia).
      rewrite (fexp_normal (54 + (ex + Z.pos p))) by lia.
      replace (54 + (ex + Z.pos p) - 53 - (ex + Z.pos p)) with 1 by lia.
      cbn.
      assert ((ex + Z.pos p + 1 <=? emax - prec) = true) as ->
        by (apply Z.leb_le; unfold emax, prec; lia).
      exists 4503599627370496%positive, (ex + Z.pos p + 1).
      split; [done|]. split; [cbn; lia|]. split; [lia|].
      replace (ex + Z.pos p + 1 - ex) with (1 + Z.pos p) by lia.
      rewrite (two_pow_add 1 (Z.pos p)) by lia.
      change (2 ^ 1) with 2. change (2 ^ 53) with 9007199254740992 in *.
      split; [lia|]. intros Hz. lia.
    + assert (Hmr : 2 ^ 52 ≤ mr < 2 ^ 53) by lia.
      rewrite (Zdigits2_unique mr 53) by (change (53 - 1) with 52; lia).
      rewrite (fexp_normal (53 + (ex + Z.pos p))) by lia.
      replace (53 + (ex + Z.pos p) - 53 - (ex + Z.pos p)) with 0 by lia.
      cbn [shr shr_m shr_record_of_loc].
      destruct mr as [|pm|pm]; [lia| |lia].
      assert ((ex + Z.pos p <=? emax - prec) = true) as ->
        by (apply Z.leb_le; unfold emax, prec; lia).
      exists pm, (ex + Z.pos p).
      replace (ex + Z.pos p - ex) with (Z.pos p) by lia.
      split; [done|]. split; [done|]. split; [lia|]. split; [lia|done].
Qed.

Lemma iter_xO m d : Z.pos (Pos.iter xO m d) = Z.pos m * 2 ^ Z.pos d.
Proof.
  induction d as [|d IH] using Pos.peano_ind.
  - cbn. lia.
  - rewrite Pos.iter_succ, Pos2Z.inj_succ, Z.pow_succ_r by lia.
    rewrite Pos2Z.inj_xO, IH. lia.
Qed.

Lemma shl_align_spec mx ex ex' :
  ex' ≤ ex →
  shl_align mx ex ex' = (Pos.iter xO mx (Z.to_pos (ex - ex')), ex') ∧ ex' < ex ∨
  shl_align mx ex ex' = (mx, ex) ∧ ex' = ex.
Proof.
  intros Hle. unfold shl_align. destruct (ex' - ex) as [|d|d] eqn:Hd; [right|lia|left].
  - split; [done|lia].
  - split; [|lia]. do 2 f_equal. lia.
Qed.

Lemma shl_align_value mx ex ex' :
  ex' ≤ ex →
  Z.pos (fst (shl_align mx ex ex')) = Z.pos mx * 2 ^ (ex - ex').
Proof.
  intros Hle. destruct (shl_align_spec mx ex ex' Hle) as [[-> Hlt]|[-> ->]]; cbn [fst].
  - rewrite iter_xO. f_equal. f_equal. lia.
  - rewrite Z.sub_diag. lia.
Qed.

Lemma divide_pow2_cancel a b x :
  0 ≤ a → 0 ≤ b → (2 ^ (a + b) | x * 2 ^ a) → (2 ^ b | x).
Proof.
  intros Ha Hb [c Hc]. exists c. rewrite two_pow_add in Hc by lia.
  pose proof (two_pow_pos a Ha). nia.
Qed.

Lemma divide_pow2_le a b x : 0 ≤ b ≤ a → (2 ^ a | x) → (2 ^ b | x).
Proof.
  intros Hab [c Hc]. exists (c * 2 ^ (a - b)).
  replace a with ((a - b) + b) in Hc at 1 by lia.
  rewrite two_pow_add in Hc by lia. lia.
Qed.

(** Rounding of the integer [m] at exponent [ex]. *)
Lemma binary_round_spec sx mx ex D :
  - scale + 52 ≤ ex → Z.pos mx < 2 ^ D → ex + D ≤ 1023 →
  let f := binary_round prec emax sx mx ex in
  let v := cond_Zopp sx (Z.pos mx) * 2 ^ (ex + scale) in
  normal_in (ex - 52) (ex + D - 52) f ∧ nearest v f.
Proof.
  intros Hex HD Hhi f v. subst f v. unfold scale in *.
  pose proof (digits2_bounds mx) as Hmx.
  set (d := Z.pos (digits2_pos mx)) in *.
  assert (Hd : 1 ≤ d) by (subst d; lia).
  assert (HdD : d ≤ D).
  { assert (d - 1 < D); [|lia]. apply two_pow_lt_inv; [|lia].
    destruct (Z.lt_ge_cases D 0); [|lia]. rewrite Z.pow_neg_r in HD; lia. }
  unfold binary_round. fold d. rewrite (fexp_normal (d + ex)) by lia.
  destruct (Z.le_gt_cases 53 d) as [Hbig|Hsmall].
  - (* at least 53 digits: no alignment *)
    assert (shl_align mx ex (d + ex - 53) = (mx, ex)) as ->.
    { unfold shl_align. by destruct (d + ex - 53 - ex) as [|q|q] eqn:E; [| |lia]. }
    destruct (binary_round_aux_spec sx mx ex) as (m' & e' & -> & Hm' & He' & Herr & Hexact);
      [by fold d..|lia|lia|]. fold d in He', Hexact.
    split; [cbn; split; [done|lia]|]. cbn [nearest ticks]. unfold scale.
    assert (Hsplit : 2 ^ (e' + 600) = 2 ^ (e' - ex) * 2 ^ (ex + 600)).
    { rewrite <- two_pow_add by lia. f_equal. lia. }
    pose proof (two_pow_pos (ex + 600) ltac:(lia)) as Hp1.
    pose proof (two_pow_pos (e' - ex) ltac:(lia)) as Hp2.
    split; [destruct sx; cbn; nia|]. split.
    + rewrite Hsplit. destruct sx; cbn [cond_Zopp]; nia.
    + intros g Hg Hdiv Hsmall.
      assert (Z.pos m' * 2 ^ (e' - ex) = Z.pos mx); [|rewrite Hsplit; destruct sx; cbn [cond_Zopp]; nia].
      apply Hexact. apply Z.mod_divide; [apply Z.pow_nonzero; lia|].
      destruct (Z.eq_dec d 53) as [E|E]; [rewrite E; apply Z.divide_1_l|].
      assert (Hv : Z.abs (cond_Zopp sx (Z.pos mx) * 2 ^ (ex + 600)) =
                   Z.pos mx * 2 ^ (ex + 600)) by (destruct sx; cbn [cond_Zopp]; nia).
      rewrite Hv in Hsmall.
      assert (Hdiv' : (2 ^ g | Z.pos mx * 2 ^ (ex + 600))).
      { destruct sx; cbn [cond_Zopp] in Hdiv; [|done].
        apply Z.divide_opp_r in Hdiv. by rewrite <- Z.mul_opp_l, Z.opp_involutive in Hdiv. }
      assert (d - 1 + (ex + 600) < g + 53).
      { apply two_pow_lt_inv; [lia|]. rewrite two_pow_add by lia. nia. }
      apply (divide_pow2_cancel (ex + 600) (d - 53)); [lia..|].
      apply (divide_pow2_le g); [lia|done].
  - (* fewer than 53 digits: the mantissa is aligned first, and kept *)
    assert (shl_align mx ex (d + ex - 53) =
            (Pos.iter xO mx (Z.to_pos (53 - d)), d + ex - 53)) as ->.
    { unfold shl_align. destruct (d + ex - 53 - ex) as [|q|q] eqn:E; [lia..|].
      do 2 f_equal. lia. }
    set (mz := Pos.iter xO mx (Z.to_pos (53 - d))).
    assert (Hmz : Z.pos mz = Z.pos mx * 2 ^ (53 - d)).
    { subst mz. rewrite iter_xO. do 2 f_equal. lia. }
    assert (Hdz : Z.pos (digits2_pos mz) = 53).
    { apply digits2_unique.
      assert (E1 : 2 ^ (53 - 1) = 2 ^ (d - 1) * 2 ^ (53 - d))
        by (rewrite <- two_pow_add by lia; f_equal; lia).
      assert (E2 : 2 ^ 53 = 2 ^ d * 2 ^ (53 - d))
        by (rewrite <- two_pow_add by lia; f_equal; lia).
      rewrite Hmz, E1, E2. pose proof (two_pow_pos (53 - d) ltac:(lia)). nia. }
    destruct (binary_round_aux_spec sx mz (d + ex - 53))
      as (m' & e' & -> & Hm' & He' & Herr & Hexact); [rewrite Hdz; lia..|].
    rewrite Hdz in He', Hexact.
    pose proof (digits2_bounds mz) as Hmzb. rewrite Hdz in Hmzb.
    change (53 - 53) with 0 in Hexact. change (2 ^ 0) with 1 in Hexact.
    specialize (Hexact (Z.mod_1_r _)).
    assert (e' = d + ex - 53) as ->.
    { destruct (Z.eq_dec e' (d + ex - 53)) as [|Hne]; [done|].
      replace (e' - (d + ex - 53)) with 1 in Hexact by lia.
      change (2 ^ 1) with 2 in Hexact. lia. }
    rewrite Z.sub_diag in *. change (2 ^ 0) with 1 in *.
    assert (Z.pos m' = Z.pos mz) as Hsame by lia.
    split; [cbn; split; [done|lia]|]. cbn [nearest ticks]. unfold scale.
    assert (Hval : Z.pos m' * 2 ^ (d + ex - 53 + 600) = Z.pos mx * 2 ^ (ex + 600)).
    { rewrite Hsame, Hmz, <- Z.mul_assoc, <- two_pow_add by lia. do 2 f_equal. lia. }
    pose proof (two_pow_pos (ex + 600) ltac:(lia)) as Hp1.
    pose proof (two_pow_pos (d + ex - 53 + 600) ltac:(lia)) as Hp2.
    split; [destruct sx; cbn; nia|]. split.
    + destruct sx; cbn [cond_Zopp]; nia.
    + intros g Hg Hdiv Hsm. destruct sx; cbn [cond_Zopp]; nia.
Qed.

Lemma binary_normalize_spec m ez D :
  - scale + 52 ≤ ez → Z.abs m < 2 ^ D → ez + D ≤ 1023 →
  let f := binary_normalize prec emax m ez false in
  normal_in (ez - 52) (ez + D - 52) f ∧ nearest (m * 2 ^ (ez + scale)) f.
Proof.
  intros Hez HD Hhi f. subst f. destruct m as [|p|p]; cbn [binary_normalize].
  - by cbn.
  - apply (binary_round_spec false p ez D); lia.
  - apply (binary_round_spec true p ez D); lia.
Qed.

Lemma nearest_self lo hi f :
  normal_in lo hi f → - scale ≤ lo → nearest (ticks f) f.
Proof.
  destruct f as [s|s| |s m e]; cbn [normal_in nearest]; [done..|].
  intros [Hm He] Hlo. pose proof (two_pow_pos (e + scale) ltac:(lia)).
  split; [destruct s; cbn; nia|]. split; [|done].
  rewrite Z.sub_diag. cbn. lia.
Qed.

Lemma normal_in_weaken lo hi lo' hi' f :
  normal_in lo hi f → lo' ≤ lo → hi ≤ hi' → normal_in lo' hi' f.
Proof. destruct f; cbn; [done..|]. lia. Qed.

Lemma ticks_aligned s m e ez :
  ez ≤ e → - scale ≤ ez →
  cond_Zopp s (Z.pos (fst (shl_align m e ez))) * 2 ^ (ez + scale) =
    ticks (S754_finite s m e).
Proof.
  intros Hle Hez. rewrite shl_align_value by done. cbn [ticks].
  replace (e + scale) with ((e - ez) + (ez + scale)) by lia.
  rewrite (two_pow_add (e - ez) (ez + scale)) by lia.
  destruct s; cbn [cond_Zopp]; lia.
Qed.

Lemma aligned_bound s m e ez hi :
  Z.pos m < 2 ^ 53 → ez ≤ e ≤ hi →
  Z.abs (cond_Zopp s (Z.pos (fst (shl_align m e ez)))) < 2 ^ (53 + hi - ez).
Proof.
  intros Hm He. rewrite shl_align_value by lia.
  replace (53 + hi - ez) with (53 + (hi - ez)) by lia.
  rewrite (two_pow_add 53 (hi - ez)) by lia.
  pose proof (two_pow_le (e - ez) (hi - ez) ltac:(lia)).
  pose proof (two_pow_pos (e - ez) ltac:(lia)).
  destruct s; cbn [cond_Zopp]; nia.
Qed.

(** Sum and difference of two floats: the float nearest to the exact
    result. *)
Lemma SFadd_spec lo hi x y :
  normal_in lo hi x → normal_in lo hi y → - scale + 52 ≤ lo → hi ≤ 900 →
  normal_in (lo - 52) (hi + 2) (SFadd prec emax x y) ∧
  nearest (ticks x + ticks y) (SFadd prec emax x y).
Proof.
  intros Hx Hy Hlo Hhi.
  destruct x as [sx|sx| |sx mx ex], y as [sy|sy| |sy my ey]; try done.
  - by destruct sx, sy.
  - cbn [SFadd]. change (ticks (S754_zero sx)) with 0. rewrite Z.add_0_l. split.
    + apply (normal_in_weaken lo hi); [done|lia..].
    + apply (nearest_self lo hi); [done|lia].
  - cbn [SFadd]. change (ticks (S754_zero sy)) with 0. rewrite Z.add_0_r. split.
    + apply (normal_in_weaken lo hi); [done|lia..].
    + apply (nearest_self lo hi); [done|lia].
  - cbn [SFadd]. cbv zeta. destruct Hx as [Hmx Hex], Hy as [Hmy Hey].
    set (ez := Z.min ex ey).
    rewrite <- (ticks_aligned sx mx ex ez), <- (ticks_aligned sy my ey ez) by lia.
    rewrite <- Z.mul_add_distr_r.
    pose proof (aligned_bound sx mx ex ez hi ltac:(lia) ltac:(lia)).
    pose proof (aligned_bound sy my ey ez hi ltac:(lia) ltac:(lia)).
    destruct (binary_normalize_spec
      (cond_Zopp sx (Z.pos (fst (shl_align mx ex ez))) +
       cond_Zopp sy (Z.pos (fst (shl_align my ey ez)))) ez (54 + hi - ez))
      as [Hn Hv]; [lia| |lia|].
    { replace (54 + hi - ez) with (1 + (53 + hi - ez)) by lia.
      rewrite (two_pow_add 1 (53 + hi - ez)) by lia. change (2 ^ 1) with 2. lia. }
    split; [|done]. apply (normal_in_weaken _ _ _ _ _ Hn); lia.
Qed.

Lemma SFsub_spec lo hi x y :
  normal_in lo hi x → normal_in lo hi y → - scale + 52 ≤ lo → hi ≤ 900 →
  normal_in (lo - 52) (hi + 2) (SFsub prec emax x y) ∧
  nearest (ticks x - ticks y) (SFsub prec emax x y).
Proof.
  intros Hx Hy Hlo Hhi.
  destruct x as [sx|sx| |sx mx ex], y as [sy|sy| |sy my ey]; try done.
  - by destruct sx, sy.
  - cbn [SFsub]. split.
    + apply (normal_in_weaken lo hi); [done|lia..].
    + replace (ticks (S754_zero sx) - ticks (S754_finite sy my ey))
        with (ticks (S754_finite (negb sy) my ey))
        by (cbn; destruct sy; cbn; lia).
      apply (nearest_self lo hi); [done|lia].
  - cbn [SFsub]. change (ticks (S754_zero sy)) with 0. rewrite Z.sub_0_r. split.
    + apply (normal_in_weaken lo hi); [done|lia..].
    + apply (nearest_self lo hi); [done|lia].
  - cbn [SFsub]. cbv zeta. destruct Hx as [Hmx Hex], Hy as [Hmy Hey].
    set (ez := Z.min ex ey).
    rewrite <- (ticks_aligned sx mx ex ez), <- (ticks_aligned sy my ey ez) by lia.
    rewrite <- Z.mul_sub_distr_r.
    pose proof (aligned_bound sx mx ex ez hi ltac:(lia) ltac:(lia)).
    pose proof (aligned_bound sy my ey ez hi ltac:(lia) ltac:(lia)).
    destruct (binary_normalize_spec
      (cond_Zopp sx (Z.pos (fst (shl_align mx ex ez))) -
       cond_Zopp sy (Z.pos (fst (shl_align my ey ez)))) ez (54 + hi - ez))
      as [Hn Hv]; [lia| |lia|].
    { replace (54 + hi - ez) with (1 + (53 + hi - ez)) by lia.
      rewrite (two_pow_add 1 (53 + hi - ez)) by lia. change (2 ^ 1) with 2. lia. }
    split; [|done]. apply (normal_in_weaken _ _ _ _ _ Hn); lia.
Qed.

Lemma binary_round_big sx mx ex :
  53 ≤ Z.pos (digits2_pos mx) → -1021 ≤ Z.pos (digits2_pos mx) + ex →
  binary_round prec emax sx mx ex =
    binary_round_aux prec emax sx (Z.pos mx) ex loc_Exact.
Proof.
  intros Hd Hlo. unfold binary_round. rewrite fexp_normal by lia.
  unfold shl_align.
  by destruct (Z.pos (digits2_pos mx) + ex - 53 - ex) as [|q|q] eqn:E; [| |lia].
Qed.

(** Product of two non-zero normal floats: the float nearest to the exact
    product [v], where [v * 2^scale] is the product of the values in
    ticks. *)
Lemma SFmul_spec lo1 hi1 lo2 hi2 sx mx ex sy my ey :
  normal_in lo1 hi1 (S754_finite sx mx ex) →
  normal_in lo2 hi2 (S754_finite sy my ey) →
  - scale + 52 ≤ lo1 + lo2 → hi1 + hi2 ≤ 900 → - scale ≤ lo1 → - scale ≤ lo2 →
  ∃ v,
    v * 2 ^ scale = ticks (S754_finite sx mx ex) * ticks (S754_finite sy my ey) ∧
    normal_in (lo1 + lo2 - 52) (hi1 + hi2 + 54)
      (SFmul prec emax (S754_finite sx mx ex) (S754_finite sy my ey)) ∧
    nearest v (SFmul prec emax (S754_finite sx mx ex) (S754_finite sy my ey)).
Proof.
  intros [Hmx Hex] [Hmy Hey] Hlo Hhi Hlo1 Hlo2. cbn [SFmul].
  assert (Hs : scale = 600) by reflexivity.
  assert (Hprod : 2 ^ 104 ≤ Z.pos (mx * my) < 2 ^ 106).
  { rewrite Pos2Z.inj_mul. change (2 ^ 104) with (2 ^ 52 * 2 ^ 52).
    change (2 ^ 106) with (2 ^ 53 * 2 ^ 53). nia. }
  assert (Hd : 105 ≤ Z.pos (digits2_pos (mx * my))).
  { pose proof (digits2_bounds (mx * my)) as [_ Hup].
    assert (104 < Z.pos (digits2_pos (mx * my))); [|lia].
    apply two_pow_lt_inv; lia. }
  rewrite <- binary_round_big by lia.
  exists (cond_Zopp (xorb sx sy) (Z.pos (mx * my)) * 2 ^ (ex + ey + scale)). split.
  - cbn [ticks]. rewrite Pos2Z.inj_mul.
    assert (2 ^ (ex + ey + scale) * 2 ^ scale = 2 ^ (ex + scale) * 2 ^ (ey + scale)).
    { rewrite <- !two_pow_add by lia. f_equal. lia. }
    destruct sx, sy; cbn [xorb cond_Zopp]; nia.
  - destruct (binary_round_spec (xorb sx sy) (mx * my) (ex + ey) 106) as [Hn Hv];
      [lia|lia|lia|].
    split; [|done]. apply (normal_in_weaken _ _ _ _ _ Hn); lia.
Qed.

(** Comparison of normal floats is the comparison of their values. *)
Lemma SFcompare_ticks lo hi x y :
  normal_in lo hi x → normal_in lo hi y → - scale ≤ lo →
  SFcompare x y = Some (ticks x ?= ticks y).
Proof.
  intros Hx Hy Hlo.
  destruct x as [sx|sx| |sx mx ex], y as [sy|sy| |sy my ey]; try done.
  - destruct Hy as [Hmy Hey]. pose proof (two_pow_pos (ey + scale) ltac:(lia)).
    cbn [SFcompare ticks]. destruct sy; cbn [cond_Zopp]; f_equal; symmetry;
      [apply Z.compare_gt_iff|apply Z.compare_lt_iff]; nia.
  - destruct Hx as [Hmx Hex]. pose proof (two_pow_pos (ex + scale) ltac:(lia)).
    cbn [SFcompare ticks]. destruct sx; cbn [cond_Zopp]; f_equal; symmetry;
      [apply Z.compare_lt_iff|apply Z.compare_gt_iff]; nia.
  - destruct Hx as [Hmx Hex], Hy as [Hmy Hey].
    pose proof (two_pow_pos (ex + scale) ltac:(lia)) as Px.
    pose proof (two_pow_pos (ey + scale) ltac:(lia)) as Py.
    assert (Hlt : ∀ m1 e1 m2 e2, 2 ^ 52 ≤ m1 < 2 ^ 53 → 2 ^ 52 ≤ m2 < 2 ^ 53 →
                  - scale ≤ e1 → e1 < e2 →
                  m1 * 2 ^ (e1 + scale) < m2 * 2 ^ (e2 + scale)).
    { intros m1 e1 m2 e2 H1 H2 Hs Hl.
      pose proof (two_pow_pos (e1 + scale) ltac:(lia)).
      pose proof (two_pow_le (e1 + scale + 1) (e2 + scale) ltac:(lia)) as Hle.
      rewrite two_pow_add in Hle by lia. change (2 ^ 1) with 2 in Hle.
      change (2 ^ 53) with (2 * 2 ^ 52) in *. nia. }
    cbn [SFcompare ticks]. f_equal.
    destruct (Z.compare_spec ex ey) as [->|Hl|Hg].
    + rewrite Pos.compare_cont_spec. cbn [Pos.switch_Eq].
      change ((mx ?= my)%positive) with (Z.pos mx ?= Z.pos my).
      destruct (Z.compare_spec (Z.pos mx) (Z.pos my)) as [E|L|G];
        destruct sx, sy; cbn [cond_Zopp CompOpp]; symmetry;
        (apply Z.compare_eq_iff || apply Z.compare_lt_iff || apply Z.compare_gt_iff);
        nia.
    + pose proof (Hlt (Z.pos mx) ex (Z.pos my) ey Hmx Hmy ltac:(lia) Hl).
      destruct sx, sy; cbn [cond_Zopp]; symmetry;
        (apply Z.compare_lt_iff || apply Z.compare_gt_iff); nia.
    + pose proof (Hlt (Z.pos my) ey (Z.pos mx) ex Hmy Hmx ltac:(lia) ltac:(lia)).
      destruct sx, sy; cbn [cond_Zopp]; symmetry;
        (apply Z.compare_lt_iff || apply Z.compare_gt_iff); nia.
Qed.

Lemma nearest_exact v f g :
  nearest v f → 0 ≤ g → (2 ^ g | v) → Z.abs v < 2 ^ (g + 53) → ticks f = v.
Proof.
  destruct f as [s|s| |s m e]; cbn [nearest]; [by intros ->|done..|].
  intros (_ & _ & H) Hg Hdiv Hlt. by apply (H g).
Qed.

Lemma ticks_bounds s m e :
  2 ^ 52 ≤ Z.pos m < 2 ^ 53 → - scale ≤ e →
  2 ^ 52 * 2 ^ (e + scale) ≤ Z.abs (ticks (S754_finite s m e))
    < 2 ^ 53 * 2 ^ (e + scale).
Proof.
  intros Hm He. cbn [ticks]. pose proof (two_pow_pos (e + scale) ltac:(lia)).
  destruct s; cbn [cond_Zopp]; nia.
Qed.

Lemma ticks_divide s m e g :
  0 ≤ g ≤ e + scale → (2 ^ g | ticks (S754_finite s m e)).
Proof.
  intros Hg. cbn [ticks]. apply Z.divide_mul_r. by apply (divide_pow2_le (e + scale)).
Qed.

(** The error of one edge. The product [p] is nearest to [x], the exact
    product; the edge [r] is nearest to the sum, or the difference, of the
    world bound and [p]. Then [r] is within [2^-28] of the exact edge and a
    multiple of [2^-31]. *)
Lemma edge_error lo hi p r x v sg :
  normal_in lo hi p → normal_in lo hi r → - scale ≤ lo →
  nearest x p → 0 ≤ x ≤ 2 * world_ticks →
  sg = 1 ∨ sg = -1 →
  v = sg * (ticks p - world_ticks) →
  nearest v r →
  Z.abs (ticks r - sg * (x - world_ticks)) ≤ 2 ^ (scale - 28) ∧
  (2 ^ (scale - 31) | ticks r).
Proof.
  intros Np Nr Hlo Hp Hx Hsg Hv Hr.
  assert (Hs : scale = 600) by reflexivity.
  unfold world_ticks, world_mantissa in *. rewrite Hs in Hx, Hv |- *.
  change (600 - 28) with 572 in *. change (600 - 31) with 569.
  assert (Hw : (2 ^ 572 | 5378777689100423 * 2 ^ 572)) by (apply Z.divide_factor_r).
  destruct p as [sp|sp| |sp mp ep]; try done.
  - (* the product is zero *)
    cbn [nearest] in Hp. subst x. change (ticks (S754_zero sp)) with 0 in Hv.
    assert (ticks r = v) as ->.
    { apply (nearest_exact v r 572); [done|lia| |].
      - subst v. apply Z.divide_mul_r. rewrite Z.sub_0_l.
        by apply Z.divide_opp_r.
      - change (572 + 53) with 625. lia. }
    split; [lia|]. subst v. apply Z.divide_mul_r. rewrite Z.sub_0_l.
    apply Z.divide_opp_r. by apply (divide_pow2_le 572).
  - destruct Np as [Hmp Hep]. destruct Hp as (Hsign & Herr & _).
    destruct sp; [lia|].
    pose proof (ticks_bounds false mp ep Hmp ltac:(lia)) as Hpb.
    set (pt := ticks (S754_finite false mp ep)) in *.
    assert (0 < pt) by (subst pt; cbn; pose proof (two_pow_pos (ep + scale) ltac:(lia)); lia).
    rewrite Z.abs_eq in Hpb by lia.
    pose proof (two_pow_pos (ep + scale) ltac:(lia)) as HQ.
    assert (Hep27 : ep ≤ -27).
    { destruct (Z.le_gt_cases ep (-27)) as [|Hgt]; [done|].
      pose proof (two_pow_le 574 (ep + scale) ltac:(lia)). lia. }
    destruct (Z.le_gt_cases (-28) ep) as [Hhigh|Hlow].
    + (* the product is at least [2^24]: the addition is exact *)
      pose proof (two_pow_le (ep + scale) 573 ltac:(lia)).
      assert (Hdp : (2 ^ 572 | pt)) by (apply ticks_divide; lia).
      assert (Hdv : (2 ^ 572 | v)).
      { subst v. apply Z.divide_mul_r. by apply Z.divide_sub_r. }
      assert (ticks r = v) as ->.
      { apply (nearest_exact v r 572); [done|lia|done|].
        change (572 + 53) with 625. lia. }
      split; [lia|]. by apply (divide_pow2_le 572).
    + (* the product is below [2^24]: the addition rounds *)
      pose proof (two_pow_le (ep + scale) 571 ltac:(lia)).
      destruct r as [sr|sr| |sr mr er]; try done.
      { cbn [nearest] in Hr. lia. }
      destruct Nr as [Hmr Her]. destruct Hr as (_ & Herr' & _).
      pose proof (ticks_bounds sr mr er Hmr ltac:(lia)) as Hrb.
      pose proof (two_pow_pos (er + scale) ltac:(lia)) as HQr.
      assert (Her28 : er ≤ -28).
      { destruct (Z.le_gt_cases er (-28)) as [|Hgt]; [done|].
        pose proof (two_pow_le 573 (er + scale) ltac:(lia)). lia. }
      assert (Her31 : -31 ≤ er).
      { destruct (Z.le_gt_cases (-31) er) as [|Hgt]; [done|].
        pose proof (two_pow_le (er + scale) 568 ltac:(lia)). lia. }
      pose proof (two_pow_le (er + scale) 572 ltac:(lia)).
      split; [lia|]. apply ticks_divide. lia.
Qed.

Lemma normal_valid lo hi f :
  normal_in lo hi f → -1000 ≤ lo → hi ≤ 900 → valid_binary f = true.
Proof.
  destruct f as [s|s| |s m e]; cbn [normal_in]; [done..|].
  intros [Hm He] Hlo Hhi. cbn [valid_binary]. unfold bounded, canonical_mantissa.
  rewrite (digits2_unique m 53) by (change (53 - 1) with 52; lia).
  rewrite (fexp_normal (53 + e)) by lia.
  apply andb_true_iff. split; [apply Z.eqb_eq; lia|].
  apply Z.leb_le. unfold emax, prec. lia.
Qed.

Lemma SFabs_ticks lo hi f :
  normal_in lo hi f → - scale ≤ lo →
  normal_in lo hi (SFabs f) ∧ ticks (SFabs f) = Z.abs (ticks f).
Proof.
  destruct f as [s|s| |s m e]; cbn [normal_in SFabs]; [done..|].
  intros [Hm He] Hlo. split; [done|]. cbn [ticks].
  pose proof (two_pow_pos (e + scale) ltac:(lia)). destruct s; cbn [cond_Zopp]; nia.
Qed.

(** The float of an integer below [2^53] is that integer. *)
Lemma Z2float_spec k :
  0 ≤ k < 2 ^ 53 →
  normal_in (-52) 1 (Prim2SF (Z2float k)) ∧
  ticks (Prim2SF (Z2float k)) = k * 2 ^ scale.
Proof.
  intros Hk. unfold Z2float.
  destruct (binary_normalize_spec k 0 53) as [Hn Hv];
    [unfold scale; lia|lia|lia|].
  rewrite Prim2SF_SF2Prim by (apply (normal_valid _ _ _ Hn); lia).
  change (0 + scale) with scale in Hv. split; [exact Hn|].
  apply (nearest_exact _ _ scale Hv); [unfold scale; lia| |].
  - apply Z.divide_factor_r.
  - rewrite (two_pow_add scale 53) by (unfold scale; lia).
    pose proof (two_pow_pos scale ltac:(unfold scale; lia)). nia.
Qed.

Lemma width_spec z :
  0 ≤ z ≤ 52 →
  Prim2SF (tileWidth z) = S754_finite false world_mantissa (-27 - z).
Proof.
  intros Hz.
  assert (Hok : width_ok z = true).
  { apply (all_below_spec 53 width_ok); [by vm_compute|lia]. }
  unfold width_ok in Hok.
  destruct (Prim2SF (tileWidth z)) as [| | |[] m e]; try discriminate.
  apply andb_true_iff in Hok as [Hm He].
  apply Z.eqb_eq in Hm, He. by injection Hm as ->; subst e.
Qed.

Lemma ticks_width z :
  ticks (S754_finite false world_mantissa (-27 - z)) = width_ticks z.
Proof. unfold width_ticks. cbn [ticks cond_Zopp]. do 2 f_equal. lia. Qed.

Lemma width_ticks_spec z :
  0 ≤ z ≤ 52 →
  normal_in (-79) (-27) (Prim2SF (tileWidth z)) ∧
  ticks (Prim2SF (tileWidth z)) = width_ticks z.
Proof.
  intros Hz. rewrite (width_spec z Hz). split; [|apply ticks_width].
  cbn [normal_in]. unfold world_mantissa. lia.
Qed.

Lemma width_world z : 0 ≤ z ≤ 52 → width_ticks z * 2 ^ z = 2 * world_ticks.
Proof.
  intros Hz. unfold width_ticks, world_ticks.
  rewrite <- Z.mul_assoc, <- two_pow_add by (unfold scale; lia).
  replace (scale - 27 - z + z) with (1 + (scale - 28)) by lia.
  rewrite (two_pow_add 1) by (unfold scale; lia). change (2 ^ 1) with 2. lia.
Qed.

(** The product [tileWidth z * c] is the float nearest to the exact
    product. *)
Lemma product_spec z k :
  0 ≤ z ≤ 52 → 0 ≤ k ≤ 2 ^ z →
  normal_in (-183) 28 (Prim2SF (tileWidth z * Z2float k)) ∧
  nearest (width_ticks z * k) (Prim2SF (tileWidth z * Z2float k)).
Proof.
  intros Hz Hk.
  assert (Hk53 : 0 ≤ k < 2 ^ 53).
  { pose proof (two_pow_le z 52 ltac:(lia)).
    change (2 ^ 53) with (2 * 2 ^ 52). lia. }
  destruct (Z2float_spec k Hk53) as [Nc Tc].
  rewrite mul_spec, (width_spec z) by done. unfold SF64mul.
  destruct (Prim2SF (Z2float k)) as [s|s| |s m e]; try done.
  - (* k = 0 *)
    cbn. cbn in Tc. pose proof (two_pow_pos scale ltac:(unfold scale; lia)).
    assert (k = 0) as -> by lia. split; [done|lia].
  - destruct (SFmul_spec (-79) (-27) (-52) 1 false world_mantissa (-27 - z) s m e)
      as (v & Hv & Hn & Hnear).
    { cbn [normal_in]. unfold world_mantissa. lia. }
    { done. }
    all: try (unfold scale; lia).
    rewrite Tc in Hv.
    assert (v = width_ticks z * k) as <-.
    { pose proof (two_pow_pos scale ltac:(unfold scale; lia)).
      rewrite ticks_width in Hv. nia. }
    split; [|done]. apply (normal_in_weaken _ _ _ _ _ Hn); lia.
Qed.

Lemma world_spec :
  Prim2SF worldMax = S754_finite false world_mantissa (-28) ∧
  Prim2SF worldMin = S754_finite true world_mantissa (-28).
Proof. split; reflexivity. Qed.

Lemma ticks_world :
  ticks (S754_finite false world_mantissa (-28)) = world_ticks ∧
  ticks (S754_finite true world_mantissa (-28)) = - world_ticks.
Proof. split; vm_compute; reflexivity. Qed.

(** West and east edges: [worldMin + tileWidth z * c]. *)
Lemma west_edge z k :
  0 ≤ z ≤ 52 → 0 ≤ k ≤ 2 ^ z →
  let w := Prim2SF (worldMin + tileWidth z * Z2float k) in
  normal_in (-235) 30 w ∧
  Z.abs (ticks w - (width_ticks z * k - world_ticks)) ≤ 2 ^ (scale - 28) ∧
  (2 ^ (scale - 31) | ticks w).
Proof.
  intros Hz Hk w. subst w. destruct (product_spec z k Hz Hk) as [Np Hp].
  rewrite add_spec. unfold SF64add. destruct world_spec as [_ ->].
  set (p := Prim2SF (tileWidth z * Z2float k)) in *.
  destruct (SFadd_spec (-183) 28 (S754_finite true world_mantissa (-28)) p)
    as [Nr Hr]; [cbn [normal_in]; unfold world_mantissa; lia|done|unfold scale; lia|lia|].
  split; [apply (normal_in_weaken _ _ _ _ _ Nr); lia|].
  pose proof (width_world z Hz) as Hww.
  assert (0 < width_ticks z).
  { unfold width_ticks. pose proof (two_pow_pos (scale - 27 - z) ltac:(unfold scale; lia)).
    lia. }
  replace (width_ticks z * k - world_ticks)
    with (1 * (width_ticks z * k - world_ticks)) by lia.
  apply (edge_error (-235) 30 p _ (width_ticks z * k)
           (ticks (S754_finite true world_mantissa (-28)) + ticks p) 1).
  - apply (normal_in_weaken _ _ _ _ _ Np); lia.
  - apply (normal_in_weaken _ _ _ _ _ Nr); lia.
  - unfold scale. lia.
  - done.
  - nia.
  - by left.
  - rewrite (proj2 ticks_world). lia.
  - done.
Qed.

(** North and south edges: [worldMax - tileWidth z * c]. *)
Lemma north_edge z k :
  0 ≤ z ≤ 52 → 0 ≤ k ≤ 2 ^ z →
  let n := Prim2SF (worldMax - tileWidth z * Z2float k) in
  normal_in (-235) 30 n ∧
  Z.abs (ticks n - (world_ticks - width_ticks z * k)) ≤ 2 ^ (scale - 28) ∧
  (2 ^ (scale - 31) | ticks n).
Proof.
  intros Hz Hk n. subst n. destruct (product_spec z k Hz Hk) as [Np Hp].
  rewrite sub_spec. unfold SF64sub. destruct world_spec as [-> _].
  set (p := Prim2SF (tileWidth z * Z2float k)) in *.
  destruct (SFsub_spec (-183) 28 (S754_finite false world_mantissa (-28)) p)
    as [Nr Hr]; [cbn [normal_in]; unfold world_mantissa; lia|done|unfold scale; lia|lia|].
  split; [apply (normal_in_weaken _ _ _ _ _ Nr); lia|].
  pose proof (width_world z Hz) as Hww.
  assert (0 < width_ticks z).
  { unfold width_ticks. pose proof (two_pow_pos (scale - 27 - z) ltac:(unfold scale; lia)).
    lia. }
  replace (world_ticks - width_ticks z * k)
    with (-1 * (width_ticks z * k - world_ticks)) by lia.
  apply (edge_error (-235) 30 p _ (width_ticks z * k)
           (ticks (S754_finite false world_mantissa (-28)) - ticks p) (-1)).
  - apply (normal_in_weaken _ _ _ _ _ Np); lia.
  - apply (normal_in_weaken _ _ _ _ _ Nr); lia.
  - unfold scale. lia.
  - done.
  - nia.
  - by right.
  - rewrite (proj1 ticks_world). lia.
  - done.
Qed.

Lemma tolerance_spec :
  Prim2SF side_tolerance = S754_finite false 6044629098073146 (-79).
Proof. reflexivity. Qed.

(** One side of an envelope, between the edge [a] and the edge [b]
    that lies one tile width further: [a < b], and the computed length
    [b - a] differs from the tile width by a quarter of the tolerance at
    most. The subtractions are exact. *)
Lemma side_check z (a b : float) (A : Z) :
  4 ≤ z ≤ 52 →
  normal_in (-235) 30 (Prim2SF a) → normal_in (-235) 30 (Prim2SF b) →
  Z.abs (ticks (Prim2SF a) - A) ≤ 2 ^ (scale - 28) →
  Z.abs (ticks (Prim2SF b) - (A + width_ticks z)) ≤ 2 ^ (scale - 28) →
  (2 ^ (scale - 31) | ticks (Prim2SF a)) →
  (2 ^ (scale - 31) | ticks (Prim2SF b)) →
  (a <? b)%float = true ∧
  (abs ((b - a) - tileWidth z) <=? side_tolerance)%float = true.
Proof.
  intros Hz Na Nb Ea Eb Da Db.
  assert (Hs : scale = 600) by reflexivity.
  destruct (width_ticks_spec z ltac:(lia)) as [Nw Tw].
  assert (Hwlo : 2 ^ 573 < width_ticks z).
  { unfold width_ticks, world_mantissa.
    pose proof (two_pow_le 521 (scale - 27 - z) ltac:(lia)). lia. }
  assert (Hwhi : width_ticks z ≤ 5378777689100423 * 2 ^ 569).
  { unfold width_ticks, world_mantissa.
    pose proof (two_pow_le (scale - 27 - z) 569 ltac:(lia)). lia. }
  assert (Hwd : (2 ^ (scale - 27 - z) | width_ticks z))
    by apply Z.divide_factor_r.
  rewrite Hs in Ea, Eb, Da, Db. change (600 - 28) with 572 in *.
  change (600 - 31) with 569 in *.
  set (ta := ticks (Prim2SF a)) in *. set (tb := ticks (Prim2SF b)) in *.
  split.
  - rewrite ltb_spec. unfold SFltb.
    rewrite (SFcompare_ticks (-235) 30) by (done || lia).
    fold ta tb. by rewrite (proj2 (Z.compare_lt_iff ta tb)) by lia.
  - rewrite leb_spec, abs_spec, !sub_spec. unfold SF64sub, SFleb.
    destruct (SFsub_spec (-235) 30 (Prim2SF b) (Prim2SF a)) as [Nd Hd];
      [done|done|lia|lia|].
    fold ta tb in Hd.
    assert (Td : ticks (SFsub prec emax (Prim2SF b) (Prim2SF a)) = tb - ta).
    { apply (nearest_exact _ _ 569 Hd); [lia| |].
      - by apply Z.divide_sub_r.
      - change (569 + 53) with 622. lia. }
    set (d := SFsub prec emax (Prim2SF b) (Prim2SF a)) in *.
    destruct (SFsub_spec (-287) 32 d (Prim2SF (tileWidth z))) as [Ne He];
      [done|apply (normal_in_weaken _ _ _ _ _ Nw); lia|lia|lia|].
    rewrite Td, Tw in He.
    assert (Te : ticks (SFsub prec emax d (Prim2SF (tileWidth z))) =
                 tb - ta - width_ticks z).
    { apply (nearest_exact _ _ (scale - 27 - z) He); [lia| |].
      - apply Z.divide_sub_r; [|done]. apply Z.divide_sub_r.
        + by apply (divide_pow2_le 569); [lia|].
        + by apply (divide_pow2_le 569); [lia|].
      - pose proof (two_pow_le 574 (scale - 27 - z + 53) ltac:(lia)). lia. }
    set (e := SFsub prec emax d (Prim2SF (tileWidth z))) in *.
    destruct (SFabs_ticks (-339) 34 e Ne ltac:(lia)) as [Nabs Tabs].
    rewrite tolerance_spec, (SFcompare_ticks (-339) 34), Tabs, Te;
      [|done|cbn [normal_in]; lia|lia].
    assert (Htol : ticks (S754_finite false 6044629098073146 (-79)) =
                   6044629098073146 * 2 ^ 521) by (vm_compute; reflexivity).
    rewrite Htol.
    by rewrite (proj2 (Z.compare_lt_iff _ _)) by lia.
Qed.

(** The sides of every tile of zoom 4 to 52, by the error analysis. *)
Lemma sides_by_analysis z k :
  4 ≤ z ≤ 52 → 0 ≤ k < 2 ^ z → coordinate_ok z k = true.
Proof.
  intros Hz Hk. unfold coordinate_ok, sides_ok. cbv zeta.
  destruct (west_edge z k ltac:(lia) ltac:(lia)) as (Nw & Ew & Dw).
  destruct (west_edge z (k + 1) ltac:(lia) ltac:(lia)) as (Ne & Ee & De).
  destruct (north_edge z k ltac:(lia) ltac:(lia)) as (Nn & En & Dn).
  destruct (north_edge z (k + 1) ltac:(lia) ltac:(lia)) as (Ns & Es & Ds).
  cbv zeta in *.
  destruct (side_check z (worldMin + tileWidth z * Z2float k)
              (worldMin + tileWidth z * Z2float (k + 1))
              (width_ticks z * k - world_ticks)) as [H1 H2]; try done.
  { replace (width_ticks z * k - world_ticks + width_ticks z)
      with (width_ticks z * (k + 1) - world_ticks) by lia. done. }
  destruct (side_check z (worldMax - tileWidth z * Z2float (k + 1))
              (worldMax - tileWidth z * Z2float k)
              (world_ticks - width_ticks z * (k + 1))) as [H3 H4]; try done.
  { replace (world_ticks - width_ticks z * (k + 1) + width_ticks z)
      with (world_ticks - width_ticks z * k) by lia. done. }
  by rewrite H1, H2, H3, H4.
Qed.

Lemma sides_by_computation z k :
  0 ≤ z ≤ 3 → 0 ≤ k < 2 ^ z → coordinate_ok z k = true.
Proof.
  intros Hz Hk.
  assert (Hlow : low_zoom_ok z = true).
  { apply (all_below_spec 4 low_zoom_ok); [by vm_compute|lia]. }
  apply (all_below_spec _ _ Hlow). rewrite Z2Nat.id; [done|].
  apply Z.pow_nonneg. lia.
Qed.

Lemma coordinate_sides z k :
  0 ≤ z ≤ 52 → 0 ≤ k < 2 ^ z → coordinate_ok z k = true.
Proof.
  intros Hz Hk. destruct (Z.le_gt_cases z 3).
  - apply sides_by_computation; lia.
  - apply sides_by_analysis; lia.
Qed.

(** C7 (amended): for a valid tile of zoom at most 52 the envelope that
    [tileToEnvelope] returns has [xmin < xmax] and [ymin < ymax], and each
    of its two side lengths is within [side_tolerance] of
    [worldSize / 2^zoom]. *)
Theorem envelope_sides_within_tolerance h z x y :
  0 ≤ z ≤ 52 →
  0 ≤ x < 2 ^ z →
  0 ≤ y < 2 ^ z →
  let l := fresh (dom (envelopes h)) in
  let e := envelope_formula z x y in
  tileToEnvelope (tile_of z x y) h =
    (Ok l, Heap (<[l := envelope_dict e]> (envelopes h)) (tables h)) ∧
  (xmin e <? xmax e)%float = true ∧
  (ymin e <? ymax e)%float = true ∧
  (abs ((xmax e - xmin e) - tileWidth z) <=? side_tolerance)%float = true ∧
  (abs ((ymax e - ymin e) - tileWidth z) <=? side_tolerance)%float = true.
Proof.
  intros Hz Hx Hy l e.
  pose proof (coordinate_sides z x Hz Hx) as Cx.
  pose proof (coordinate_sides z y Hz Hy) as Cy.
  unfold coordinate_ok, sides_ok in Cx, Cy. cbv zeta in Cx, Cy.
  repeat (apply andb_true_iff in Cx as [Cx ?]).
  repeat (apply andb_true_iff in Cy as [Cy ?]).
  split; [|by cbn [e xmin xmax ymin ymax envelope_formula]].
  pose proof (valid_coordinate_range z x ltac:(lia) Hx).
  pose proof (valid_coordinate_range z y ltac:(lia) Hy).
  apply tileToEnvelope_run; lia.
Qed.

Lemma envelope_sides_within_tolerance_witness :
  (xmin (envelope_formula 52 (2 ^ 52 - 1) 170)
     <? xmax (envelope_formula 52 (2 ^ 52 - 1) 170))%float = true ∧
  (abs ((ymax (envelope_formula 52 (2 ^ 52 - 1) 170)
         - ymin (envelope_formula 52 (2 ^ 52 - 1) 170))
        - tileWidth 52) <=? side_tolerance)%float = true.
Proof.
  destruct (envelope_sides_within_tolerance (Heap ∅ ∅) 52 (2 ^ 52 - 1) 170)
    as (_ & Hx & _ & _ & Hy); [lia|lia|lia|].
  split; [exact Hx|exact Hy].
Defined.

(** C7, as stated, fails: the two side lengths of the tile (9, 255, 170)
    differ; from zoom 53 on valid tiles have envelopes without width, such
    as (53, 2^53 - 2, 0), whose west and east edges are the same float;
    and the envelope of the valid tile (55, 0, 0) is degenerate on both
    axes, with [xmin = xmax] and [ymin = ymax]. *)
Lemma envelope_not_square_or_degenerate :
  ((xmax (envelope_formula 9 255 170) - xmin (envelope_formula 9 255 170)) =?
   (ymax (envelope_formula 9 255 170) - ymin (envelope_formula 9 255 170)))%float
    = false ∧
  tileIsValid (tile_of 53 (2 ^ 53 - 2) 0) = Ok true ∧
  edge "xmin" (tileToEnvelope (tile_of 53 (2 ^ 53 - 2) 0) (Heap ∅ ∅)) =
    Ok (xmin (envelope_formula 53 (2 ^ 53 - 2) 0)) ∧
  edge "xmax" (tileToEnvelope (tile_of 53 (2 ^ 53 - 2) 0) (Heap ∅ ∅)) =
    Ok (xmin (envelope_formula 53 (2 ^ 53 - 2) 0)) ∧
  tileIsValid (tile_of 55 0 0) = Ok true ∧
  edge "xmin" (tileToEnvelope (tile_of 55 0 0) (Heap ∅ ∅)) = Ok worldMin ∧
  edge "xmax" (tileToEnvelope (tile_of 55 0 0) (Heap ∅ ∅)) = Ok worldMin ∧
  edge "ymin" (tileToEnvelope (tile_of 55 0 0) (Heap ∅ ∅)) = Ok worldMax ∧
  edge "ymax" (tileToEnvelope (tile_of 55 0 0) (Heap ∅ ∅)) = Ok worldMax.
Proof. repeat split; vm_compute; reflexivity. Qed.

(** * Further properties *)

(** ** The validator on arbitrary tile dicts *)

Lemma contains_absent {V} (d : gmap string V) k : d !! k = None → contains k d = false.
Proof.
  intros H. unfold contains. rewrite H. apply bool_decide_eq_false_2.
  by intros [v Hv].
Qed.

Lemma tileIsValid_absent (tile : gmap string value) :
  tile !! "x" = None ∨ tile !! "y" = None ∨ tile !! "zoom" = None ∨
  tile !! "format" = None ∨
  (∃ v, tile !! "format" = Some v ∧ v ≠ VStr "pbf" ∧ v ≠ VStr "mvt") →
  tileIsValid tile = Ok false.
Proof.
  intros H. unfold tileIsValid.
  destruct (tile !! "x") as [vx|] eqn:Hx;
    [rewrite (contains_lookup _ _ _ Hx)|by rewrite (contains_absent _ _ Hx)].
  destruct (tile !! "y") as [vy|] eqn:Hy;
    [rewrite (contains_lookup _ _ _ Hy)|by rewrite (contains_absent _ _ Hy)].
  destruct (tile !! "zoom") as [vz|] eqn:Hz;
    [rewrite (contains_lookup _ _ _ Hz)|by rewrite (contains_absent _ _ Hz)].
  cbn [andb negb].
  destruct H as [H|[H|[H|[H|(v & Hf & Hp & Hm)]]]]; [done|done|done| |].
  - by rewrite (contains_absent _ _ H).
  - rewrite (contains_lookup _ _ _ Hf), (getitem_lookup _ _ _ Hf). cbn.
    rewrite bool_decide_eq_false_2; [done|].
    rewrite !elem_of_cons, elem_of_nil. intros [?|[?|[]]]; congruence.
Qed.

(** A tile dict that lacks one of the keys [x], [y], [zoom], [format], or
    whose format is neither ['pbf'] nor ['mvt'], is invalid: the validator
    returns [False] and raises nothing, whatever the other values are. *)
Theorem tileIsValid_incomplete (tile : gmap string value) :
  tile !! "x" = None ∨ tile !! "y" = None ∨ tile !! "zoom" = None ∨
  tile !! "format" = None ∨
  (∃ v, tile !! "format" = Some v ∧ v ≠ VStr "pbf" ∧ v ≠ VStr "mvt") →
  tileIsValid tile = Ok false.
Proof. apply tileIsValid_absent. Qed.

Lemma tileIsValid_incomplete_witness :
  tileIsValid {[ "x" := VInt 1; "y" := VInt 1; "zoom" := VStr "one" ]} = Ok false ∧
  tileIsValid (<["format" := VStr "png"]> (tile_of 1 0 0)) = Ok false.
Proof.
  split.
  - apply tileIsValid_incomplete. do 3 right. left. vm_compute. reflexivity.
  - apply tileIsValid_incomplete. do 4 right. exists (VStr "png").
    split; [vm_compute; reflexivity|]. split; discriminate.
Defined.

(** The two supported formats are validated alike: a tile dict is treated
    the same with format ['pbf'] as with format ['mvt']. *)
Theorem tileIsValid_pbf_like_mvt (tile : gmap string value) :
  tileIsValid (<["format" := VStr "pbf"]> tile) =
    tileIsValid (<["format" := VStr "mvt"]> tile).
Proof.
  unfold tileIsValid, contains, getitem.
  rewrite !lookup_insert_eq, !(lookup_insert_ne _ "format") by done.
  cbn [mbind result_bind].
  rewrite !(bool_decide_eq_true_2 (is_Some (Some _))) by eauto.
  rewrite !(bool_decide_eq_true_2 (_ ∈ _)) by (rewrite !elem_of_cons; auto).
  reflexivity.
Qed.

(** The validator on a well-typed tile dict: what is left once the keys
    and the format have been checked. *)
Lemma tileIsValid_typed (tile : gmap string value) z x y f :
  tile !! "zoom" = Some (VInt z) →
  tile !! "x" = Some (VInt x) →
  tile !! "y" = Some (VInt y) →
  tile !! "format" = Some (VStr f) →
  f = "pbf" ∨ f = "mvt" →
  tileIsValid tile =
    size ← pow2 z;
    x_big ← py_ge (VInt x) size;
    too_big ← (if x_big : bool then Ok true else py_ge (VInt y) size);
    if too_big : bool then Ok false else Ok (negb ((x <? 0) || (y <? 0))).
Proof.
  intros Hz Hx Hy Hf Hsup. unfold tileIsValid.
  rewrite (contains_lookup _ _ _ Hz), (contains_lookup _ _ _ Hx),
    (contains_lookup _ _ _ Hy), (contains_lookup _ _ _ Hf).
  rewrite (getitem_lookup _ _ _ Hz), (getitem_lookup _ _ _ Hx),
    (getitem_lookup _ _ _ Hy), (getitem_lookup _ _ _ Hf).
  cbn. rewrite bool_decide_eq_true_2
    by (rewrite !elem_of_cons; destruct Hsup as [->| ->]; auto).
  cbn.
  destruct (pow2 z) as [[s|s]|e]; [| |done]; cbn.
  - destruct (s <=? x), (s <=? y); cbn; try done; by destruct (x <? 0), (y <? 0).
  - destruct (int_float_compare x s) as [[]|], (int_float_compare y s) as [[]|];
      cbn; try done; by destruct (x <? 0), (y <? 0).
Qed.

(** ** Negative zoom levels *)

Lemma ldexp_clamp z : z ≤ -2099 → Z.ldexp 1 z = Z.ldexp 1 (-2099).
Proof.
  intros Hz. unfold Z.ldexp. cbv zeta.
  change (emin - emax - 1) with (-2099). change (emax - emin) with 2098.
  change (IntDef.Z.max) with Z.max. change (IntDef.Z.min) with Z.min.
  by rewrite Z.min_l, Z.max_r by lia.
Qed.

Lemma negative_power z : z < 0 → negative_power_ok z = true.
Proof.
  intros Hz. destruct (Z.le_gt_cases z (-2099)) as [Hlow|Hhigh].
  - unfold negative_power_ok. rewrite (proj2 (Z.leb_gt (-1074) z)) by lia.
    rewrite (ldexp_clamp z Hlow). by vm_compute.
  - replace z with (z + 2099 - 2099) by lia.
    apply (all_below_spec 2099 (λ k, negative_power_ok (k - 2099)));
      [by vm_compute|lia].
Qed.

(** Comparison of an integer with a float strictly between 0 and 1. *)
Lemma ge_subunit n f :
  subunit f = true → py_ge (VInt n) (NFloat f) = Ok (0 <? n).
Proof.
  unfold subunit, py_ge, int_float_compare.
  destruct (Prim2SF f) as [| | |[] m e]; try discriminate.
  intros [He Hm]%andb_true_iff. apply Z.ltb_lt in He, Hm.
  rewrite (proj2 (Z.leb_gt 0 e)) by lia. f_equal.
  assert (Hp : 0 < 2 ^ (- e)) by (apply Z.pow_pos_nonneg; lia).
  destruct (Z.ltb_spec 0 n) as [Hn|Hn].
  - replace (n * 2 ^ (- e) ?= Z.pos m) with Gt; [done|].
    symmetry. apply Z.compare_gt_iff. nia.
  - replace (n * 2 ^ (- e) ?= Z.pos m) with Lt; [done|].
    symmetry. apply Z.compare_lt_iff. nia.
Qed.

(** Comparison of an integer with a float zero. *)
Lemma ge_zero n f :
  match Prim2SF f with S754_zero _ => true | _ => false end = true →
  py_ge (VInt n) (NFloat f) = Ok (0 <=? n).
Proof.
  unfold py_ge, int_float_compare.
  destruct (Prim2SF f); try discriminate. intros _. f_equal.
  destruct (Z.leb_spec 0 n) as [Hn|Hn], (Z.compare_spec n 0); done || lia.
Qed.

Lemma tileIsValid_fractional_grid_eq (tile : gmap string value) z x y f :
  tile !! "zoom" = Some (VInt z) →
  tile !! "x" = Some (VInt x) →
  tile !! "y" = Some (VInt y) →
  tile !! "format" = Some (VStr f) →
  f = "pbf" ∨ f = "mvt" →
  z < 0 →
  tileIsValid tile =
    if z <=? - float_overflow_bound then Raise OverflowError
    else Ok (bool_decide (-1074 ≤ z ∧ x = 0 ∧ y = 0)).
Proof.
  intros Hz Hx Hy Hf Hsup Hneg.
  rewrite (tileIsValid_typed tile z x y f) by done.
  unfold pow2, int_to_float. rewrite (proj2 (Z.leb_gt 0 z)) by lia.
  pose proof (negative_power z Hneg) as Hpow. revert Hpow.
  generalize float_overflow_bound. intros B Hpow.
  destruct (Z.leb_spec z (- B)) as [Hbig|Hsmall].
  { by rewrite (proj2 (Z.ltb_ge (Z.abs z) B)) by lia. }
  rewrite (proj2 (Z.ltb_lt (Z.abs z) B)) by lia. cbn [mbind result_bind].
  unfold negative_power_ok in Hpow.
  destruct (Z.leb_spec (-1074) z) as [Hnorm|Hunder].
  - apply andb_true_iff in Hpow as [Hsub _].
    rewrite !(ge_subunit _ _ Hsub).
    destruct (Z.ltb_spec 0 x), (Z.ltb_spec 0 y), (Z.ltb_spec x 0),
      (Z.ltb_spec y 0); try lia; cbn; f_equal; symmetry;
      (apply bool_decide_eq_true_2 || apply bool_decide_eq_false_2); lia.
  - rewrite !(ge_zero _ _ Hpow).
    destruct (Z.leb_spec 0 x), (Z.leb_spec 0 y), (Z.ltb_spec x 0),
      (Z.ltb_spec y 0); try lia; cbn; f_equal; symmetry;
      apply bool_decide_eq_false_2; lia.
Qed.

(** At a negative zoom the grid size [2 ** zoom] is a fraction: from zoom
    -1 down to -1074 only the tile at x = 0, y = 0 is valid; below, the
    grid size underflows to zero and no tile is valid; and a zoom too large
    in magnitude to convert to a float raises [OverflowError]. *)
Theorem tileIsValid_fractional_grid (tile : gmap string value) z x y f :
  tile !! "zoom" = Some (VInt z) →
  tile !! "x" = Some (VInt x) →
  tile !! "y" = Some (VInt y) →
  tile !! "format" = Some (VStr f) →
  f = "pbf" ∨ f = "mvt" →
  z < 0 →
  tileIsValid tile =
    if z <=? - float_overflow_bound then Raise OverflowError
    else Ok (bool_decide (-1074 ≤ z ∧ x = 0 ∧ y = 0)).
Proof. apply tileIsValid_fractional_grid_eq. Qed.

Lemma tileIsValid_fractional_grid_witness :
  tileIsValid (tile_of (-1074) 0 0) = Ok true ∧
  tileIsValid (tile_of (-3) 1 0) = Ok false ∧
  tileIsValid (tile_of (-1075) 0 0) = Ok false.
Proof.
  split; [|split].
  - by rewrite (tileIsValid_fractional_grid (tile_of (-1074) 0 0) (-1074) 0 0 "mvt");
      [| | | | |right|].
  - by rewrite (tileIsValid_fractional_grid (tile_of (-3) 1 0) (-3) 1 0 "mvt");
      [| | | | |right|].
  - by rewrite (tileIsValid_fractional_grid (tile_of (-1075) 0 0) (-1075) 0 0 "mvt");
      [| | | | |right|].
Defined.

(** ** What the validator accepts *)


Lemma tileIsValid_ints (tile : gmap string value) vz vx vy f :
  tile !! "zoom" = Some vz →
  tile !! "x" = Some vx →
  tile !! "y" = Some vy →
  tile !! "format" = Some (VStr f) →
  f = "pbf" ∨ f = "mvt" →
  tileIsValid tile = Ok true →
  ∃ z x y, vz = VInt z ∧ vx = VInt x ∧ vy = VInt y.
Proof.
  intros Hz Hx Hy Hf Hsup. unfold tileIsValid.
  rewrite (contains_lookup _ _ _ Hz), (contains_lookup _ _ _ Hx),
    (contains_lookup _ _ _ Hy), (contains_lookup _ _ _ Hf).
  rewrite (getitem_lookup _ _ _ Hz), (getitem_lookup _ _ _ Hx),
    (getitem_lookup _ _ _ Hy), (getitem_lookup _ _ _ Hf).
  cbn. rewrite bool_decide_eq_true_2
    by (rewrite !elem_of_cons; destruct Hsup as [->| ->]; auto).
  cbn [negb andb mbind result_bind py_pow2].
  intros Hvalid.
  destruct vz as [z|sz]; [|discriminate]. cbn [py_pow2] in Hvalid.
  destruct (pow2 z) as [size|e]; [|discriminate]. cbn [mbind result_bind] in Hvalid.
  destruct vx as [x|sx]; [|discriminate].
  destruct (py_ge (VInt x) size) as [[]|e]; [discriminate| |discriminate].
  destruct vy as [y|sy]; [|discriminate]. by exists z, x, y.
Qed.

Lemma tileIsValid_on_grid (tile : gmap string value) z x y f :
  tile !! "zoom" = Some (VInt z) →
  tile !! "x" = Some (VInt x) →
  tile !! "y" = Some (VInt y) →
  tile !! "format" = Some (VStr f) →
  f = "pbf" ∨ f = "mvt" →
  tileIsValid tile = Ok true ↔ on_grid z x y.
Proof.
  intros Hz Hx Hy Hf Hsup. unfold on_grid.
  destruct (Z.lt_ge_cases z 0) as [Hneg|Hpos].
  - rewrite (tileIsValid_fractional_grid_eq tile z x y f) by done.
    destruct (z <=? - float_overflow_bound) eqn:Hbig.
    + apply Z.leb_le in Hbig.
      assert (float_overflow_bound > 2000) by reflexivity.
      split; [discriminate|lia].
    + split.
      * intros [= Hd]. apply bool_decide_eq_true_1 in Hd. lia.
      * intros H. f_equal. apply bool_decide_eq_true_2. lia.
  - rewrite (tileIsValid_typed tile z x y f) by done.
    rewrite (pow2_nonneg z) by lia. cbn.
    assert (0 < 2 ^ z) by (apply Z.pow_pos_nonneg; lia).
    destruct (Z.leb_spec (2 ^ z) x), (Z.leb_spec (2 ^ z) y), (Z.ltb_spec x 0),
      (Z.ltb_spec y 0); cbn; split; try discriminate; try lia; done.
Qed.

Lemma tileIsValid_true_shape (tile : gmap string value) :
  tileIsValid tile = Ok true ↔
  ∃ z x y f,
    tile !! "zoom" = Some (VInt z) ∧ tile !! "x" = Some (VInt x) ∧
    tile !! "y" = Some (VInt y) ∧ tile !! "format" = Some (VStr f) ∧
    (f = "pbf" ∨ f = "mvt") ∧ on_grid z x y.
Proof.
  split.
  - intros Hvalid.
    destruct (tile !! "zoom") as [vz|] eqn:Hz;
      [|rewrite tileIsValid_absent in Hvalid by auto; discriminate].
    destruct (tile !! "x") as [vx|] eqn:Hx;
      [|rewrite tileIsValid_absent in Hvalid by auto; discriminate].
    destruct (tile !! "y") as [vy|] eqn:Hy;
      [|rewrite tileIsValid_absent in Hvalid by auto; discriminate].
    destruct (tile !! "format") as [vf|] eqn:Hf;
      [|rewrite tileIsValid_absent in Hvalid by auto; discriminate].
    assert (Hsup : ∃ f, vf = VStr f ∧ (f = "pbf" ∨ f = "mvt")).
    { destruct (decide (vf = VStr "pbf")) as [->|Hp]; [eauto|].
      destruct (decide (vf = VStr "mvt")) as [->|Hm]; [eauto|].
      rewrite tileIsValid_absent in Hvalid; [discriminate|].
      do 4 right. eauto. }
    destruct Hsup as (f & -> & Hsup).
    destruct (tileIsValid_ints tile vz vx vy f) as (z & x & y & -> & -> & ->);
      [done..|].
    exists z, x, y, f. repeat (split; [done|]).
    by apply (tileIsValid_on_grid tile z x y f).
  - intros (z & x & y & f & Hz & Hx & Hy & Hf & Hsup & Hgrid).
    by apply (tileIsValid_on_grid tile z x y f).
Qed.

(** The validator returns [True] exactly for the dicts that hold integer
    [zoom], [x] and [y], a supported format, and an address on the grid
    (other keys are ignored). *)
Theorem tileIsValid_accepts_iff (tile : gmap string value) :
  tileIsValid tile = Ok true ↔
  ∃ z x y f,
    tile !! "zoom" = Some (VInt z) ∧ tile !! "x" = Some (VInt x) ∧
    tile !! "y" = Some (VInt y) ∧ tile !! "format" = Some (VStr f) ∧
    (f = "pbf" ∨ f = "mvt") ∧ on_grid z x y.
Proof. apply tileIsValid_true_shape. Qed.

(** ** The parser *)

Lemma py_int_raises v e :
  py_int v = Raise e → e = ValueError ∧ ∃ s, v = VStr s ∧ parse_int s = None.
Proof.
  destruct v as [n|s]; cbn; [discriminate|].
  destruct (parse_int s) eqn:Hs; [discriminate|]. intros [= <-]. eauto.
Qed.

Lemma read_coordinate_cases (p : gmap string value) (k : string) :
  (∃ v n, p !! k = Some v ∧ py_int v = Ok n ∧ getitem p k ≫= py_int = Ok n) ∨
  (p !! k = None ∧ getitem p k ≫= py_int = Raise (KeyError k)) ∨
  (∃ s, p !! k = Some (VStr s) ∧ parse_int s = None ∧
        getitem p k ≫= py_int = Raise ValueError).
Proof.
  unfold getitem. destruct (p !! k) as [v|] eqn:Hk; cbn; [|by right; left].
  destruct (py_int v) as [n|e] eqn:Hv; [left; by exists v, n|].
  destruct (py_int_raises v e Hv) as (-> & s & -> & Hs). right. right. by exists s.
Qed.

(** The parser returns a tile exactly when the parameters hold values for
    [z], [x] and [y] that [int] accepts; the tile then has the four keys
    [zoom], [x], [y], [format] and nothing else, with format ['mvt']:
    other parameters are dropped. *)
Theorem pathToTile_some_iff (params : option (gmap string value))
    (tile : gmap string value) :
  pathToTile params = Ok (Some tile) ↔
  ∃ p vz vx vy z x y,
    params = Some p ∧
    p !! "z" = Some vz ∧ p !! "x" = Some vx ∧ p !! "y" = Some vy ∧
    py_int vz = Ok z ∧ py_int vx = Ok x ∧ py_int vy = Ok y ∧
    tile = tile_of z x y.
Proof.
  split.
  - destruct params as [p|]; [|discriminate]. unfold pathToTile.
    destruct (truthy p); [|discriminate].
    destruct (read_coordinate_cases p "z")
      as [(vz & z & Hz & Iz & ->)|[(_ & ->)|(s & _ & _ & ->)]];
      [|discriminate..].
    destruct (read_coordinate_cases p "x")
      as [(vx & x & Hx & Ix & ->)|[(_ & ->)|(s & _ & _ & ->)]];
      [|discriminate..].
    destruct (read_coordinate_cases p "y")
      as [(vy & y & Hy & Iy & ->)|[(_ & ->)|(s & _ & _ & ->)]];
      [|discriminate..].
    cbn. intros [= <-]. by exists p, vz, vx, vy, z, x, y.
  - intros (p & vz & vx & vy & z & x & y & -> & Hz & Hx & Hy & Iz & Ix & Iy & ->).
    unfold pathToTile. rewrite truthy_nonempty.
    2:{ intros ->. by rewrite lookup_empty in Hz. }
    rewrite (getitem_lookup _ _ _ Hz), (getitem_lookup _ _ _ Hx),
      (getitem_lookup _ _ _ Hy). cbn. by rewrite Iz, Ix, Iy.
Qed.

(** The parser raises only on a malformed address: a [KeyError] names the
    first of [z], [x], [y] that the parameters lack, a [ValueError] means
    that the first unusable value is a string that [int] rejects. *)
Theorem pathToTile_raises_only_malformed (params : option (gmap string value))
    (e : exn) :
  pathToTile params = Raise e →
  ∃ p k,
    params = Some p ∧ k ∈ ["z"; "x"; "y"] ∧
    ((p !! k = None ∧ e = KeyError k) ∨
     (∃ s, p !! k = Some (VStr s) ∧ parse_int s = None ∧ e = ValueError)).
Proof.
  destruct params as [p|]; [|discriminate]. unfold pathToTile.
  destruct (truthy p); [|discriminate].
  destruct (read_coordinate_cases p "z")
    as [(vz & z & Hz & Iz & ->)|[(Hz & ->)|(s & Hz & Hs & ->)]].
  2:{ intros [= <-]. exists p, "z". split; [done|]. split; [set_solver|]. by left. }
  2:{ intros [= <-]. exists p, "z". split; [done|]. split; [set_solver|].
      right. by exists s. }
  destruct (read_coordinate_cases p "x")
    as [(vx & x & Hx & Ix & ->)|[(Hx & ->)|(s & Hx & Hs & ->)]].
  2:{ intros [= <-]. exists p, "x". split; [done|]. split; [set_solver|]. by left. }
  2:{ intros [= <-]. exists p, "x". split; [done|]. split; [set_solver|].
      right. by exists s. }
  destruct (read_coordinate_cases p "y")
    as [(vy & y & Hy & Iy & ->)|[(Hy & ->)|(s & Hy & Hs & ->)]].
  2:{ intros [= <-]. exists p, "y". split; [done|]. split; [set_solver|]. by left. }
  2:{ intros [= <-]. exists p, "y". split; [done|]. split; [set_solver|].
      right. by exists s. }
  discriminate.
Qed.

Lemma pathToTile_raises_only_malformed_witness :
  ∃ p k,
    Some ({[ "z" := VStr "9"; "x" := VStr "1.5"; "y" := VStr "1" ]}
            : gmap string value) = Some p ∧
    k ∈ ["z"; "x"; "y"] ∧
    ((p !! k = None ∧ ValueError = KeyError k) ∨
     (∃ s, p !! k = Some (VStr s) ∧ parse_int s = None ∧ ValueError = ValueError)).
Proof.
  apply (pathToTile_raises_only_malformed
           (Some {[ "z" := VStr "9"; "x" := VStr "1.5"; "y" := VStr "1" ]})
           ValueError).
  vm_compute. reflexivity.
Defined.

(** ** The projector and the heap *)

(** A run of [tileToEnvelope] leaves the heap as it was, or adds one dict
    at a fresh location (complete on success, partial when a coordinate
    fails after [dict()]). *)
Lemma tileToEnvelope_heap tile h :
  snd (tileToEnvelope tile h) = h ∨
  ∃ d, snd (tileToEnvelope tile h) =
         Heap (<[fresh (dom (envelopes h)) := d]> (envelopes h)) (tables h).
Proof.
  unfold tileToEnvelope. cbv zeta.
  destruct (getitem tile "zoom" ≫= py_pow2) as [wts|e]; step; [|by left].
  match goal with |- context [float_truediv ?s wts] =>
    destruct (float_truediv s wts) as [tms|e] end; step; [|by left].
  step. unfold new_env. cbv beta iota zeta. right.
  destruct (getitem tile "x" ≫= float_mul tms) as [w|e]; step; [|by eexists].
  step. rewrite env_set_allocated. cbv beta iota.
  destruct (x1 ← getitem tile "x" ≫= py_succ; float_mul tms x1) as [ea|e];
    step; [|by eexists].
  step. rewrite env_set_allocated. cbv beta iota.
  destruct (y1 ← getitem tile "y" ≫= py_succ; float_mul tms y1) as [so|e];
    step; [|by eexists].
  step. rewrite env_set_allocated. cbv beta iota.
  destruct (getitem tile "y" ≫= float_mul tms) as [no|e]; step; [|by eexists].
  step. rewrite env_set_allocated. cbv beta iota. by eexists.
Qed.

(** Whether it returns or raises, [tileToEnvelope] changes no dict that
    exists already: every envelope dict of the heap keeps its contents and
    the table dicts are untouched. *)
Theorem tileToEnvelope_preserves_heap tile h l d :
  envelopes h !! l = Some d →
  envelopes (snd (tileToEnvelope tile h)) !! l = Some d ∧
  tables (snd (tileToEnvelope tile h)) = tables h.
Proof.
  intros Hl. destruct (tileToEnvelope_heap tile h) as [->|[d' ->]]; [done|].
  cbn. split; [|done]. rewrite lookup_insert_ne; [done|].
  intros Heq. apply (is_fresh (dom (envelopes h))). rewrite Heq.
  by apply elem_of_dom.
Qed.

Lemma tileToEnvelope_preserves_heap_witness :
  envelopes (snd (tileToEnvelope (tile_of 3 1 2) example_heap)) !! 1%positive =
    Some (envelope_dict (envelope_formula 0 0 0)) ∧
  tables (snd (tileToEnvelope (tile_of 3 1 2) example_heap)) =
    tables example_heap.
Proof.
  apply (tileToEnvelope_preserves_heap (tile_of 3 1 2) example_heap 1%positive).
  vm_compute. reflexivity.
Defined.

(** ** Projection of accepted tiles *)

Lemma envelope_of_typed (tile : gmap string value) z x y :
  tile !! "zoom" = Some (VInt z) →
  tile !! "x" = Some (VInt x) →
  tile !! "y" = Some (VInt y) →
  envelope_of tile =
    size ← pow2 z;
    tw ← float_truediv worldSize size;
    w ← int_to_float x;
    e ← int_to_float (x + 1);
    s ← int_to_float (y + 1);
    n ← int_to_float y;
    Ok (envelope_dict (Envelope (worldMin + tw * w) (worldMax - tw * s)
                                (worldMin + tw * e) (worldMax - tw * n))).
Proof.
  intros Hz Hx Hy. unfold envelope_of. cbv zeta.
  rewrite (getitem_lookup _ _ _ Hz), (getitem_lookup _ _ _ Hx),
    (getitem_lookup _ _ _ Hy).
  cbn [mbind result_bind py_pow2 py_succ float_mul].
  destruct (pow2 z) as [size|err]; [|done]. cbn [mbind result_bind].
  change (20037508.3427892 - -1 * 20037508.3427892)%float with worldSize.
  destruct (float_truediv worldSize size) as [tw|err]; [|done].
  cbn [mbind result_bind].
  destruct (int_to_float x) as [w|err]; [|done]. cbn [mbind result_bind].
  destruct (int_to_float (x + 1)) as [e|err]; [|done]. cbn [mbind result_bind].
  destruct (int_to_float (y + 1)) as [s|err]; [|done]. cbn [mbind result_bind].
  destruct (int_to_float y) as [n|err]; [|done]. reflexivity.
Qed.

(** The keys of a dict that [tileToEnvelope] completes. *)
Lemma envelope_of_dom tile d :
  envelope_of tile = Ok d →
  dom d = ({[ "xmin"; "ymin"; "xmax"; "ymax" ]} : gset string).
Proof.
  unfold envelope_of. cbv zeta.
  destruct (getitem tile "zoom" ≫= py_pow2) as [wts|e]; [|discriminate].
  cbn [mbind result_bind].
  match goal with |- context [float_truediv ?s wts] =>
    destruct (float_truediv s wts) as [tms|e] end; [|discriminate].
  cbn [mbind result_bind].
  destruct (getitem tile "x" ≫= float_mul tms) as [w|e]; [|discriminate].
  cbn [mbind result_bind].
  destruct (x1 ← getitem tile "x" ≫= py_succ; float_mul tms x1) as [ea|e];
    [|discriminate].
  cbn [mbind result_bind].
  destruct (y1 ← getitem tile "y" ≫= py_succ; float_mul tms y1) as [so|e];
    [|discriminate].
  cbn [mbind result_bind].
  destruct (getitem tile "y" ≫= float_mul tms) as [no|e]; [|discriminate].
  cbn [mbind result_bind]. intros [= <-].
  rewrite !dom_insert_L, dom_empty_L. set_solver.
Qed.

(** On-grid addresses of zoom at most 1023 project without error. *)
Lemma envelope_of_on_grid (tile : gmap string value) z x y :
  tile !! "zoom" = Some (VInt z) →
  tile !! "x" = Some (VInt x) →
  tile !! "y" = Some (VInt y) →
  on_grid z x y →
  z ≤ 1023 →
  ∃ d, envelope_of tile = Ok d.
Proof.
  intros Hz Hx Hy Hgrid Hmax. rewrite (envelope_of_typed tile z x y) by done.
  destruct Hgrid as [(Hpos & Hxr & Hyr)|(Hneg & -> & ->)].
  - destruct (valid_coordinate_range z x) as [? ?]; [lia|done|].
    destruct (valid_coordinate_range z y) as [? ?]; [lia|done|].
    rewrite (pow2_nonneg z) by lia. cbn [mbind result_bind]. unfold float_truediv.
    rewrite (int_to_float_small (2 ^ z)).
    2:{ assert (2 ^ z ≤ 2 ^ 1023) by (apply Z.pow_le_mono_r; lia).
        assert (0 < 2 ^ z) by (apply Z.pow_pos_nonneg; lia). lia. }
    cbn [mbind result_bind]. rewrite (grid_size_nonzero z) by lia.
    cbn [mbind result_bind].
    rewrite (int_to_float_small x), (int_to_float_small (x + 1)),
      (int_to_float_small y), (int_to_float_small (y + 1)) by lia.
    cbn [mbind result_bind]. eauto.
  - unfold pow2. rewrite (proj2 (Z.leb_gt 0 z)) by lia.
    rewrite (int_to_float_small z).
    2:{ assert (2000 < 2 ^ 1023) by reflexivity. lia. }
    pose proof (negative_power z (proj2 Hneg)) as Hpow.
    unfold negative_power_ok in Hpow.
    rewrite (proj2 (Z.leb_le (-1074) z)) in Hpow by lia.
    apply andb_true_iff in Hpow as [_ Hnz%negb_true_iff].
    cbn [mbind result_bind float_truediv]. rewrite Hnz.
    cbn [mbind result_bind]. eauto.
Qed.

(** What the validator accepts the projector handles up to zoom 1023: it
    returns a new dict with the four edges. From zoom 1024 on the grid size
    no longer converts to a float: [OverflowError], before any dict is
    created. *)
Theorem accepted_tile_projection (tile : gmap string value) z h :
  tileIsValid tile = Ok true →
  tile !! "zoom" = Some (VInt z) →
  if z <=? 1023 then
    ∃ d, tileToEnvelope tile h =
           (Ok (fresh (dom (envelopes h))),
            Heap (<[fresh (dom (envelopes h)) := d]> (envelopes h)) (tables h)) ∧
         dom d = ({[ "xmin"; "ymin"; "xmax"; "ymax" ]} : gset string)
  else tileToEnvelope tile h = (Raise OverflowError, h).
Proof.
  intros Hvalid Hz.
  apply tileIsValid_true_shape in Hvalid
    as (z' & x & y & f & Hz' & Hx & Hy & _ & _ & Hgrid).
  assert (z' = z) as -> by congruence.
  destruct (Z.leb_spec z 1023) as [Hmax|Hbig].
  - destruct (envelope_of_on_grid tile z x y) as [d Hd]; [done..|].
    exists d. pose proof (tileToEnvelope_result tile h) as Hrun.
    rewrite Hd in Hrun. split; [done|]. by apply (envelope_of_dom tile).
  - unfold tileToEnvelope. rewrite (getitem_lookup _ _ _ Hz).
    cbn -[Z.pow Z2float]. rewrite (pow2_nonneg z) by lia.
    rewrite bind_lift, bind_lift. unfold float_truediv.
    rewrite (int_to_float_large (2 ^ z)); [done|].
    apply Z.pow_le_mono_r; lia.
Qed.

Lemma accepted_tile_projection_witness :
  (∃ d, tileToEnvelope (<["format" := VStr "pbf"]> (tile_of 3 1 2)) example_heap =
          (Ok (fresh (dom (envelopes example_heap))),
           Heap (<[fresh (dom (envelopes example_heap)) := d]>
                   (envelopes example_heap)) (tables example_heap)) ∧
        dom d = ({[ "xmin"; "ymin"; "xmax"; "ymax" ]} : gset string)) ∧
  tileToEnvelope (tile_of 1024 0 0) example_heap = (Raise OverflowError, example_heap).
Proof.
  split.
  - apply (accepted_tile_projection (<["format" := VStr "pbf"]> (tile_of 3 1 2)) 3
             example_heap); vm_compute; reflexivity.
  - apply (accepted_tile_projection (tile_of 1024 0 0) 1024 example_heap);
      [|vm_compute; reflexivity].
    apply tileIsValid_true_shape. exists 1024, 0, 0, "mvt".
    repeat (split; [vm_compute; reflexivity|]). split; [by right|].
    left. split; [lia|]. split; split; try lia; apply Z.pow_pos_nonneg; lia.
Defined.

(** ** The outer edges of the grid *)


Lemma same_float_eq a b : same_float a b = true → a = b.
Proof.
  unfold same_float. intros H.
  rewrite <- (SF2Prim_Prim2SF a), <- (SF2Prim_Prim2SF b). f_equal.
  destruct (Prim2SF a) as [s|s| |s m e], (Prim2SF b) as [t|t| |t n f];
    try discriminate; try done.
  - by apply Bool.eqb_prop in H as ->.
  - by apply Bool.eqb_prop in H as ->.
  - apply andb_true_iff in H as [[Hs Hm]%andb_true_iff He].
    apply Bool.eqb_prop in Hs as ->. apply Pos.eqb_eq in Hm as ->.
    by apply Z.eqb_eq in He as ->.
Qed.

Lemma boundary_checked z : 0 ≤ z ≤ 1023 → boundary_ok z = true.
Proof.
  intros Hz. apply (all_below_spec 1024 boundary_ok); [by vm_compute|lia].
Qed.

(** The grid covers the world exactly at every zoom up to 1023: the west
    edge of column 0 and the south edge of the last row are the lower world
    bound, the north edge of row 0 and the east edge of the last column are
    the upper world bound, without rounding error. *)
Theorem grid_covers_world h z :
  0 ≤ z ≤ 1023 →
  edge "xmin" (tileToEnvelope (tile_of z 0 0) h) = Ok worldMin ∧
  edge "ymax" (tileToEnvelope (tile_of z 0 0) h) = Ok worldMax ∧
  edge "xmax" (tileToEnvelope (tile_of z (2 ^ z - 1) (2 ^ z - 1)) h) = Ok worldMax ∧
  edge "ymin" (tileToEnvelope (tile_of z (2 ^ z - 1) (2 ^ z - 1)) h) = Ok worldMin.
Proof.
  intros Hz.
  assert (Hp : 0 < 2 ^ z) by (apply Z.pow_pos_nonneg; lia).
  assert (Hq : 2 ^ z ≤ 2 ^ 1023) by (apply Z.pow_le_mono_r; lia).
  assert (Hr : 0 < 2 ^ 1023) by (apply Z.pow_pos_nonneg; lia).
  rewrite !tileToEnvelope_run, !edge_allocated by lia.
  pose proof (boundary_checked z Hz) as Hb. unfold boundary_ok in Hb.
  cbv zeta in Hb.
  apply andb_true_iff in Hb as [[[H1 H2]%andb_true_iff H3]%andb_true_iff H4].
  apply same_float_eq in H1, H2, H3, H4.
  destruct (envelope_dict_lookup (envelope_formula z 0 0)) as (L1 & _ & _ & L2).
  destruct (envelope_dict_lookup (envelope_formula z (2 ^ z - 1) (2 ^ z - 1)))
    as (_ & L3 & L4 & _).
  rewrite (getitem_lookup _ _ _ L1), (getitem_lookup _ _ _ L2),
    (getitem_lookup _ _ _ L3), (getitem_lookup _ _ _ L4).
  by rewrite H1, H2, H3, H4.
Qed.

Lemma grid_covers_world_witness :
  edge "xmin" (tileToEnvelope (tile_of 12 0 0) example_heap) = Ok worldMin ∧
  edge "ymax" (tileToEnvelope (tile_of 12 0 0) example_heap) = Ok worldMax ∧
  edge "xmax" (tileToEnvelope (tile_of 12 (2 ^ 12 - 1) (2 ^ 12 - 1)) example_heap)
    = Ok worldMax ∧
  edge "ymin" (tileToEnvelope (tile_of 12 (2 ^ 12 - 1) (2 ^ 12 - 1)) example_heap)
    = Ok worldMin.
Proof. apply (grid_covers_world example_heap 12). lia. Defined.

(** ** Parser and validator together *)

(** A tile that the parser returns is complete and well typed: the
    validator decides it without [KeyError] or [TypeError]. It answers
    whether the address is on the grid; only a zoom so negative that it
    does not convert to a float makes it raise, [OverflowError]. *)
Theorem parsed_tile_validation (params : option (gmap string value))
    (tile : gmap string value) :
  pathToTile params = Ok (Some tile) →
  ∃ z x y,
    tile = tile_of z x y ∧
    tileIsValid tile =
      if z <=? - float_overflow_bound then Raise OverflowError
      else Ok (bool_decide (on_grid z x y)).
Proof.
  destruct params as [p|]; [|discriminate]. unfold pathToTile.
  destruct (truthy p); [|discriminate].
  destruct (getitem p "z" ≫= py_int) as [z|]; [|discriminate].
  destruct (getitem p "x" ≫= py_int) as [x|]; [|discriminate].
  destruct (getitem p "y" ≫= py_int) as [y|]; [|discriminate].
  cbn [mbind result_bind]. intros [= <-]. exists z, x, y. split; [done|].
  fold (tile_of z x y).
  destruct (tile_of_lookup z x y) as (Lz & Lx & Ly & Lf).
  destruct (Z.lt_ge_cases z 0) as [Hneg|Hpos].
  - rewrite (tileIsValid_fractional_grid_eq (tile_of z x y) z x y "mvt");
      [|done..|by right|done].
    destruct (z <=? - float_overflow_bound); [done|]. f_equal.
    apply bool_decide_ext. unfold on_grid. lia.
  - assert (0 < float_overflow_bound) by reflexivity.
    rewrite (proj2 (Z.leb_gt z (- float_overflow_bound))) by lia.
    pose proof (tileIsValid_on_grid (tile_of z x y) z x y "mvt" Lz Lx Ly Lf
                  (or_intror eq_refl)) as Hiff.
    assert (Hret : ∃ b, tileIsValid (tile_of z x y) = Ok b).
    { rewrite (tileIsValid_typed (tile_of z x y) z x y "mvt");
        [|done..|by right].
      rewrite (pow2_nonneg z) by lia. cbn [mbind result_bind py_ge].
      destruct (2 ^ z <=? x); cbn [mbind result_bind]; [by eexists|].
      destruct (2 ^ z <=? y); cbn [mbind result_bind]; by eexists. }
    destruct Hret as [b Hb]. rewrite Hb. f_equal.
    destruct b.
    + symmetry. apply bool_decide_eq_true_2. by apply Hiff.
    + symmetry. apply bool_decide_eq_false_2. intros Hgrid.
      apply Hiff in Hgrid. congruence.
Qed.

Lemma parsed_tile_validation_witness :
  ∃ z x y,
    tile_of 2 4 0 = tile_of z x y ∧
    tileIsValid (tile_of 2 4 0) =
      if z <=? - float_overflow_bound then Raise OverflowError
      else Ok (bool_decide (on_grid z x y)).
Proof.
  apply (parsed_tile_validation
           (Some {[ "z" := VStr "2"; "x" := VStr "4"; "y" := VStr "0" ]})).
  vm_compute. reflexivity.
Defined.

(** ** Query text *)

Lemma query_text_format (kw : gmap string string) b g a t s :
  kw !! "env" = Some b →
  kw !! "geomColumn" = Some g →
  kw !! "attrColumns" = Some a →
  kw !! "table" = Some t →
  kw !! "srid" = Some s →
  str_format id query_template kw = Ok (query_text b g a t s).
Proof.
  intros He Hg Ha Ht Hs. unfold str_format, query_template.
  cbv [format_from Ascii.eqb Bool.eqb String.append fmap result_fmap mbind
       result_bind id].
  rewrite (getitem_lookup _ _ _ He), (getitem_lookup _ _ _ Hg),
    (getitem_lookup _ _ _ Ha), (getitem_lookup _ _ _ Ht),
    (getitem_lookup _ _ _ Hs).
  reflexivity.
Qed.

Lemma segment_size_insert (d : gmap string float) seg :
  segment_size (<["segSize" := seg]> d) = segment_size d.
Proof.
  unfold segment_size, getitem. by rewrite !lookup_insert_ne.
Qed.

Lemma envelope_of_formula (tile : gmap string value) z x y :
  tile !! "zoom" = Some (VInt z) →
  tile !! "x" = Some (VInt x) →
  tile !! "y" = Some (VInt y) →
  0 ≤ z ≤ 1023 → 0 ≤ x < 2 ^ z → 0 ≤ y < 2 ^ z →
  envelope_of tile = Ok (envelope_dict (envelope_formula z x y)).
Proof.
  intros Hz Hx Hy Hzr Hxr Hyr. rewrite (envelope_of_typed tile z x y) by done.
  destruct (valid_coordinate_range z x) as [? ?]; [lia|done|].
  destruct (valid_coordinate_range z y) as [? ?]; [lia|done|].
  rewrite (pow2_nonneg z) by lia. cbn [mbind result_bind]. unfold float_truediv.
  rewrite (int_to_float_small (2 ^ z)).
  2:{ assert (2 ^ z ≤ 2 ^ 1023) by (apply Z.pow_le_mono_r; lia).
      assert (0 < 2 ^ z) by (apply Z.pow_pos_nonneg; lia). lia. }
  cbn [mbind result_bind]. rewrite (grid_size_nonzero z) by lia.
  cbn [mbind result_bind].
  rewrite (int_to_float_small x), (int_to_float_small (x + 1)),
    (int_to_float_small y), (int_to_float_small (y + 1)) by lia.
  reflexivity.
Qed.

Lemma result_bind_ok {A B} (a : A) (f : A → result B) : Ok a ≫= f = f a.
Proof. reflexivity. Qed.

Section ServiceProperties.

Variable float_str : float → string.
Variable execute_statement : string → result string.
Variable json_dumps : string → string.
Variable b64encode : string → string.

Lemma bounds_of_envelope (e : envelope) :
  bounds_of float_str (envelope_dict e) = Ok (bounds_sql float_str e).
Proof.
  destruct (envelope_dict_lookup e) as (L0 & L1 & L2 & L3).
  unfold bounds_of. rewrite (segment_size_lookup _ _ _ L0 L1).
  cbn [mbind result_bind].
  apply (bounds_text float_str _ (xmin e) (ymin e) (xmax e) (ymax e));
    by rewrite ?lookup_insert_eq, ?lookup_insert_ne.
Qed.

Lemma query_of_text (e : envelope) (tbl : gmap string string) g a t s :
  tbl !! "geomColumn" = Some g →
  tbl !! "attrColumns" = Some a →
  tbl !! "table" = Some t →
  tbl !! "srid" = Some s →
  query_of float_str (envelope_dict e) tbl =
    Ok (query_text (bounds_sql float_str e) g a t s).
Proof.
  intros Hg Ha Ht Hs. unfold query_of. rewrite bounds_of_envelope.
  cbn [mbind result_bind].
  apply query_text_format; by rewrite ?lookup_insert_eq, ?lookup_insert_ne.
Qed.

(** For an envelope dict with its four edges and a [TABLE] with the keys
    [table], [srid], [geomColumn] and [attrColumns], query construction
    returns the template with every field filled in: the bounds expression
    twice, the geometry column twice, the attribute columns, the table and
    the SRID. Other keys of [TABLE] play no part. *)
Theorem envelopeToSQL_text h env (e : envelope) g a t s :
  envelopes h !! env = Some (envelope_dict e) →
  table_at h TABLE !! "geomColumn" = Some g →
  table_at h TABLE !! "attrColumns" = Some a →
  table_at h TABLE !! "table" = Some t →
  table_at h TABLE !! "srid" = Some s →
  fst (envelopeToSQL float_str env h) =
    Ok (query_text (bounds_sql float_str e) g a t s).
Proof.
  intros He Hg Ha Ht Hs.
  rewrite envelopeToSQL_result, (env_at_allocated h env _ He).
  by apply query_of_text.
Qed.

(** Densification is idempotent: a second run on the same dict recomputes
    the same segment size, returns the same outcome and leaves the heap as
    the first run left it. *)
Theorem envelopeToBoundsSQL_idempotent h env :
  envelopeToBoundsSQL float_str env (snd (envelopeToBoundsSQL float_str env h)) =
    envelopeToBoundsSQL float_str env h.
Proof.
  rewrite (envelopeToBoundsSQL_run float_str h env).
  destruct (segment_size (env_at h env)) as [seg|err] eqn:Hseg; cbv zeta; cbn [snd].
  - rewrite envelopeToBoundsSQL_run, env_at_insert, segment_size_insert, Hseg.
    cbv zeta. cbn [envelopes tables]. by rewrite !insert_insert_eq.
  - by rewrite envelopeToBoundsSQL_run, Hseg.
Qed.

(** The outcome of the handler depends on the heap through the contents of
    [TABLE] only. *)
Lemma lambda_handler_result event h :
  fst (lambda_handler float_str execute_statement json_dumps b64encode event h) =
    handler_result float_str execute_statement b64encode event (table_at h TABLE).
Proof.
  unfold lambda_handler, handler_result. cbv zeta.
  destruct (getitem event "pathParameters") as [params|err]; step; [|done].
  cbn [mbind result_bind].
  destruct (pathToTile params) as [[tile|]|err]; step; [| |done].
  all: cbn [mbind result_bind].
  2:{ by step. }
  assert (Hvalid :
    (if truthy tile then lift (tileIsValid tile) else mret false) h =
    ((if truthy tile then tileIsValid tile else Ok false), h)).
  { by destruct (truthy tile). }
  step. rewrite Hvalid.
  destruct (if truthy tile then tileIsValid tile else Ok false) as [[]|err];
    cbn [mbind result_bind]; cbv beta iota; [| |done].
  2:{ by step. }
  step. pose proof (tileToEnvelope_result tile h) as Hrun.
  destruct (envelope_of tile) as [d|err]; cbn [mbind result_bind].
  - rewrite Hrun. cbv beta iota. step.
    pose proof (envelopeToSQL_result float_str
      (Heap (<[fresh (dom (envelopes h)) := d]> (envelopes h)) (tables h))
      (fresh (dom (envelopes h)))) as Hsql.
    rewrite env_at_insert in Hsql.
    change (table_at (Heap ?E (tables h)) TABLE) with (table_at h TABLE) in Hsql.
    destruct (envelopeToSQL float_str _ _) as [[sql|err] g]; cbn [fst] in Hsql;
      rewrite <- Hsql; cbn [mbind result_bind]; cbv beta iota; [|done].
    step. unfold sqlToPbf. 
    destruct (execute_statement sql) as [pbf|err]; [|done]. reflexivity.
  - destruct Hrun as [Hfst _].
    destruct (tileToEnvelope tile h) as [[l|err'] g]; cbn [fst] in Hfst;
      cbv beta iota; cbn [fst]; congruence.
Qed.

(** The handler leaves every table dict that exists already as it was. *)
Lemma lambda_handler_tables event h l :
  is_Some (tables h !! l) →
  tables (snd (lambda_handler float_str execute_statement json_dumps b64encode
                 event h)) !! l = tables h !! l.
Proof.
  intros Hl. unfold lambda_handler. cbv zeta.
  destruct (getitem event "pathParameters") as [params|err]; step; [|done].
  destruct (pathToTile params) as [[tile|]|err]; step; [| |done].
  2:{ by step. }
  assert (Hvalid :
    (if truthy tile then lift (tileIsValid tile) else mret false) h =
    ((if truthy tile then tileIsValid tile else Ok false), h)).
  { by destruct (truthy tile). }
  step. rewrite Hvalid.
  destruct (if truthy tile then tileIsValid tile else Ok false) as [[]|err];
    cbv beta iota; [| |done].
  2:{ by step. }
  step.
  assert (Ht : tables (snd (tileToEnvelope tile h)) = tables h).
  { by destruct (tileToEnvelope_heap tile h) as [->|[d ->]]. }
  destruct (tileToEnvelope tile h) as [[env|err] g]; cbn [snd] in Ht;
    cbv beta iota; [|cbn [snd]; by rewrite Ht].
  assert (Hfresh : fresh (dom (tables g)) ≠ l).
  { intros Heq. apply (is_fresh (dom (tables g))). rewrite Heq, Ht.
    by apply elem_of_dom. }
  step. rewrite envelopeToSQL_run. cbv zeta.
  destruct (segment_size (env_at g env)) as [seg|err]; cbv beta iota.
  2:{ cbn [snd tables]. by rewrite lookup_insert_ne, Ht. }
  destruct (str_format float_str bounds_template _) as [b|err]; cbv beta iota.
  2:{ cbn [snd tables]. by rewrite lookup_insert_ne, Ht. }
  destruct (str_format id query_template _) as [sql|err]; cbv beta iota.
  2:{ cbn [snd tables]. by rewrite lookup_insert_ne, Ht. }
  step. unfold sqlToPbf.
  destruct (execute_statement sql) as [pbf|err]; cbv beta iota;
    unfold lift, mret, M_ret; cbn [snd tables]; by rewrite lookup_insert_ne, Ht.
Qed.

(** Requests do not interfere through the program's dicts: whatever an
    earlier request did, succeeded or raised, [TABLE] is still there and a
    later request has the outcome it would have had without it, the
    database answering alike. *)
Theorem lambda_handler_isolated first second h :
  is_Some (tables h !! TABLE) →
  let h' := snd (lambda_handler float_str execute_statement json_dumps b64encode
                   first h) in
  is_Some (tables h' !! TABLE) ∧
  fst (lambda_handler float_str execute_statement json_dumps b64encode second h') =
    fst (lambda_handler float_str execute_statement json_dumps b64encode second h).
Proof.
  intros HT h'. pose proof (lambda_handler_tables first h TABLE HT) as Hsame.
  fold h' in Hsame. split; [by rewrite Hsame|].
  rewrite !lambda_handler_result. unfold table_at. by rewrite Hsame.
Qed.

(** The handler never returns the 400 response, nor any response other
    than the tile response: whenever it returns, the status is 200 and the
    body is the base64 text of a blob the database returned. *)
Theorem lambda_handler_returns_tiles_only event h r :
  fst (lambda_handler float_str execute_statement json_dumps b64encode event h)
    = Ok r →
  statusCode r = 200 ∧ isBase64Encoded r = Some true ∧
  ∃ sql pbf, execute_statement sql = Ok pbf ∧ r = tile_response (b64encode pbf).
Proof.
  rewrite lambda_handler_result. unfold handler_result.
  destruct (getitem event "pathParameters") as [params|err]; [|discriminate].
  cbn [mbind result_bind].
  destruct (pathToTile params) as [[tile|]|err]; [|discriminate..].
  cbn [mbind result_bind].
  destruct (if truthy tile then tileIsValid tile else Ok false) as [[]|err];
    [|discriminate..].
  cbn [mbind result_bind].
  destruct (envelope_of tile) as [d|err]; [|discriminate].
  cbn [mbind result_bind].
  destruct (query_of float_str d (table_at h TABLE)) as [sql|err]; [|discriminate].
  cbn [mbind result_bind].
  destruct (execute_statement sql) as [pbf|err] eqn:Hpbf; [|discriminate].
  cbn [mbind result_bind]. intros [= <-].
  split; [done|]. split; [done|]. by exists sql, pbf.
Qed.

Lemma pathToTile_reads (p : gmap string value) vz vx vy z x y :
  p !! "z" = Some vz → p !! "x" = Some vx → p !! "y" = Some vy →
  py_int vz = Ok z → py_int vx = Ok x → py_int vy = Ok y →
  pathToTile (Some p) = Ok (Some (tile_of z x y)).
Proof.
  intros Hz Hx Hy Iz Ix Iy. unfold pathToTile. rewrite truthy_nonempty.
  2:{ intros ->. by rewrite lookup_empty in Hz. }
  rewrite (getitem_lookup _ _ _ Hz), (getitem_lookup _ _ _ Hx),
    (getitem_lookup _ _ _ Hy). cbn. by rewrite Iz, Ix, Iy.
Qed.

Lemma tile_of_valid z x y :
  on_grid z x y → tileIsValid (tile_of z x y) = Ok true.
Proof.
  intros Hgrid. destruct (tile_of_lookup z x y) as (Lz & Lx & Ly & Lf).
  apply (tileIsValid_on_grid (tile_of z x y) z x y "mvt"); auto.
Qed.

Lemma tile_of_truthy z x y : truthy (tile_of z x y) = true.
Proof.
  apply truthy_nonempty. intros Hempty.
  destruct (tile_of_lookup z x y) as (Lz & _).
  by rewrite Hempty, lookup_empty in Lz.
Qed.

(** A request for a tile of the grid, of zoom at most 1023, is served: the
    handler runs the query built from the envelope of the tile and from
    [TABLE], and answers 200 with the base64 text of the blob; an exception
    of the database call propagates. *)
Theorem lambda_handler_serves event (p : gmap string value) vz vx vy z x y h
    g a t s :
  event !! "pathParameters" = Some (Some p) →
  p !! "z" = Some vz → p !! "x" = Some vx → p !! "y" = Some vy →
  py_int vz = Ok z → py_int vx = Ok x → py_int vy = Ok y →
  0 ≤ z ≤ 1023 → 0 ≤ x < 2 ^ z → 0 ≤ y < 2 ^ z →
  table_at h TABLE !! "geomColumn" = Some g →
  table_at h TABLE !! "attrColumns" = Some a →
  table_at h TABLE !! "table" = Some t →
  table_at h TABLE !! "srid" = Some s →
  fst (lambda_handler float_str execute_statement json_dumps b64encode event h) =
    pbf ← execute_statement
            (query_text (bounds_sql float_str (envelope_formula z x y)) g a t s);
    Ok (tile_response (b64encode pbf)).
Proof.
  intros He Hz Hx Hy Iz Ix Iy Hzr Hxr Hyr Hg Ha Ht Hs.
  destruct (tile_of_lookup z x y) as (Lz & Lx & Ly & _).
  rewrite lambda_handler_result. unfold handler_result.
  rewrite (getitem_lookup _ _ _ He), result_bind_ok.
  rewrite (pathToTile_reads p vz vx vy z x y), result_bind_ok by done.
  rewrite tile_of_truthy, tile_of_valid, result_bind_ok by (left; lia).
  rewrite (envelope_of_formula (tile_of z x y) z x y), result_bind_ok by done.
  rewrite (query_of_text (envelope_formula z x y) _ g a t s), result_bind_ok
    by done.
  reflexivity.
Qed.

(** A request whose path parameters lack one of [z], [x], [y] or hold a
    value that is not numeric gets no 400 response either: the exception
    of the parser, [KeyError] or [ValueError], leaves the handler, and the
    heap is untouched. *)
Theorem lambda_handler_malformed event (p : gmap string value) (k : string) h :
  event !! "pathParameters" = Some (Some p) →
  p ≠ ∅ →
  k ∈ ["z"; "x"; "y"] →
  absent_or_non_numeric p k →
  ∃ e, lambda_handler float_str execute_statement json_dumps b64encode event h =
         (Raise e, h) ∧ MalformedAddress e.
Proof.
  intros He Hne Hk Hbad.
  assert (Hparse : ∃ e, pathToTile (Some p) = Raise e ∧ MalformedAddress e).
  { unfold pathToTile. rewrite (truthy_nonempty p Hne).
    destruct (read_coordinate p "z") as [(nz & -> & Hz)|(e & -> & Hm)];
      [|by exists e].
    destruct (read_coordinate p "x") as [(nx & -> & Hx)|(e & -> & Hm)];
      [|by exists e].
    destruct (read_coordinate p "y") as [(ny & -> & Hy)|(e & -> & Hm)];
      [|by exists e].
    exfalso. rewrite !elem_of_cons, elem_of_nil in Hk.
    destruct Hk as [->|[->|[->|[]]]]; tauto. }
  destruct Hparse as (e & Hparse & Hm). exists e. split; [|done].
  unfold lambda_handler. cbv zeta.
  rewrite (getitem_lookup _ _ _ He). step. by rewrite Hparse.
Qed.

(** A request for a tile of the grid of zoom 1024 or more passes
    validation and then fails in the projector: the handler raises
    [OverflowError] and builds no query. *)
Theorem lambda_handler_zoom_overflow event (p : gmap string value) vz vx vy z x y h :
  event !! "pathParameters" = Some (Some p) →
  p !! "z" = Some vz → p !! "x" = Some vx → p !! "y" = Some vy →
  py_int vz = Ok z → py_int vx = Ok x → py_int vy = Ok y →
  1024 ≤ z → 0 ≤ x < 2 ^ z → 0 ≤ y < 2 ^ z →
  lambda_handler float_str execute_statement json_dumps b64encode event h =
    (Raise OverflowError, h).
Proof.
  intros He Hz Hx Hy Iz Ix Iy Hzr Hxr Hyr.
  unfold lambda_handler. cbv zeta.
  rewrite (getitem_lookup _ _ _ He). step.
  rewrite (pathToTile_reads p vz vx vy z x y) by done. step.
  rewrite tile_of_truthy. step. rewrite tile_of_valid by (left; lia).
  cbv beta iota. step. by rewrite (tileToEnvelope_overflow h z x y Hzr).
Qed.

(** A request without a tile address: an event without the key
    [pathParameters] raises [KeyError]; path parameters that are [None] or
    an empty dict make the handler take the error branch, which raises
    [NameError]. The heap is untouched. *)
Theorem lambda_handler_without_address event h :
  match event !! "pathParameters" with
  | None =>
      lambda_handler float_str execute_statement json_dumps b64encode event h =
        (Raise (KeyError "pathParameters"), h)
  | Some None =>
      lambda_handler float_str execute_statement json_dumps b64encode event h =
        (Raise (NameError "self"), h)
  | Some (Some p) =>
      p = ∅ →
      lambda_handler float_str execute_statement json_dumps b64encode event h =
        (Raise (NameError "self"), h)
  end.
Proof.
  destruct (event !! "pathParameters") as [[p|]|] eqn:He.
  - intros ->. apply (lambda_handler_rejects _ _ _ _ event (Some ∅) h He).
    by left.
  - apply (lambda_handler_rejects _ _ _ _ event None h He). by left.
  - unfold lambda_handler, getitem. cbv zeta. by rewrite He.
Qed.

(** The densifier reads [xmax] and then [xmin] before it writes: when the
    dict lacks one of them it raises the [KeyError] of the first one
    missing and the heap is as before. *)
Theorem envelopeToBoundsSQL_missing_edge h env (d : gmap string float) :
  envelopes h !! env = Some d →
  d !! "xmax" = None ∨ d !! "xmin" = None →
  envelopeToBoundsSQL float_str env h =
    (Raise (KeyError match d !! "xmax" with
                     | Some _ => "xmin"
                     | None => "xmax"
                     end), h).
Proof.
  intros Hd Hmiss. rewrite envelopeToBoundsSQL_run, (env_at_allocated h env d Hd).
  unfold segment_size, getitem.
  destruct (d !! "xmax") as [x1|]; [|done].
  destruct Hmiss as [Hmiss|Hmiss]; [done|]. by rewrite Hmiss.
Qed.

End ServiceProperties.

Lemma envelopeToSQL_text_witness :
  fst (envelopeToSQL (λ _, "f") 1%positive example_heap) =
    Ok (query_text (bounds_sql (λ _, "f") (envelope_formula 0 0 0))
          "geom" "id" "roads" "4326").
Proof.
  apply (envelopeToSQL_text (λ _, "f") example_heap 1%positive
           (envelope_formula 0 0 0) "geom" "id" "roads" "4326");
    vm_compute; reflexivity.
Defined.

Lemma lambda_handler_isolated_witness :
  let h' := snd (lambda_handler (λ _, "f") (λ sql, Ok sql) id id example_event
                   (module_heap "roads" "4326")) in
  is_Some (tables h' !! TABLE) ∧
  fst (lambda_handler (λ _, "f") (λ sql, Ok sql) id id
         (request_for "0" "0" "0") h') =
    fst (lambda_handler (λ _, "f") (λ sql, Ok sql) id id
           (request_for "0" "0" "0") (module_heap "roads" "4326")).
Proof.
  apply (lambda_handler_isolated (λ _, "f") (λ sql, Ok sql) id id example_event
           (request_for "0" "0" "0") (module_heap "roads" "4326")).
  exists (table_spec "roads" "4326"). vm_compute. reflexivity.
Defined.

Lemma lambda_handler_returns_tiles_only_witness :
  statusCode (tile_response "blob") = 200 ∧
  isBase64Encoded (tile_response "blob") = Some true ∧
  ∃ sql pbf, (λ _ : string, Ok "blob") sql = Ok pbf ∧
             tile_response "blob" = tile_response (id pbf).
Proof.
  apply (lambda_handler_returns_tiles_only (λ _, "f") (λ _, Ok "blob") id id
           (request_for "0" "0" "0") (module_heap "roads" "4326")).
  vm_compute. reflexivity.
Defined.

Lemma lambda_handler_serves_witness :
  fst (lambda_handler (λ _, "f") (λ sql, Ok sql) id id (request_for "2" "1" "3")
         (module_heap "roads" "4326")) =
    pbf ← Ok (query_text (bounds_sql (λ _, "f") (envelope_formula 2 1 3))
                "geom" "id" "roads" "4326");
    Ok (tile_response (id pbf)).
Proof.
  apply (lambda_handler_serves (λ _, "f") (λ sql, Ok sql) id id
           (request_for "2" "1" "3")
           {[ "z" := VStr "2"; "x" := VStr "1"; "y" := VStr "3" ]}
           (VStr "2") (VStr "1") (VStr "3") 2 1 3 (module_heap "roads" "4326")
           "geom" "id" "roads" "4326");
    try (vm_compute; reflexivity); lia.
Defined.

Lemma lambda_handler_malformed_witness :
  ∃ e, lambda_handler (λ _, "f") (λ sql, Ok sql) id id (request_for "9" "a" "1")
         (module_heap "roads" "4326") = (Raise e, module_heap "roads" "4326") ∧
       MalformedAddress e.
Proof.
  apply (lambda_handler_malformed (λ _, "f") (λ sql, Ok sql) id id
           (request_for "9" "a" "1")
           {[ "z" := VStr "9"; "x" := VStr "a"; "y" := VStr "1" ]} "x").
  - vm_compute. reflexivity.
  - intros H. apply (f_equal (λ m : gmap string value, m !! "z")) in H.
    vm_compute in H. discriminate.
  - set_solver.
  - right. exists "a". split; reflexivity.
Defined.

Lemma lambda_handler_zoom_overflow_witness :
  lambda_handler (λ _, "f") (λ sql, Ok sql) id id (request_for "1024" "0" "0")
    (module_heap "roads" "4326") =
    (Raise OverflowError, module_heap "roads" "4326").
Proof.
  apply (lambda_handler_zoom_overflow (λ _, "f") (λ sql, Ok sql) id id
           (request_for "1024" "0" "0")
           {[ "z" := VStr "1024"; "x" := VStr "0"; "y" := VStr "0" ]}
           (VStr "1024") (VStr "0") (VStr "0") 1024 0 0);
    try (vm_compute; reflexivity); try lia; split; (lia || reflexivity).
Defined.

Lemma envelopeToBoundsSQL_missing_edge_witness :
  envelopeToBoundsSQL (λ _, "f") 1%positive
    (Heap {[ 1%positive := {[ "xmax" := worldMax; "ymin" := worldMin ]} ]} ∅) =
    (Raise (KeyError "xmin"),
     Heap {[ 1%positive := {[ "xmax" := worldMax; "ymin" := worldMin ]} ]} ∅).
Proof.
  etrans.
  - apply (envelopeToBoundsSQL_missing_edge (λ _, "f")
             (Heap {[ 1%positive := {[ "xmax" := worldMax; "ymin" := worldMin ]} ]} ∅)
             1%positive {[ "xmax" := worldMax; "ymin" := worldMin ]}).
    + vm_compute. reflexivity.
    + right. vm_compute. reflexivity.
  - vm_compute. reflexivity.
Defined.

Lemma lambda_handler_without_address_witness :
  lambda_handler (λ _, "f") (λ sql, Ok sql) id id
    {[ "pathParameters" := Some ∅ ]} (module_heap "roads" "4326") =
    (Raise (NameError "self"), module_heap "roads" "4326").
Proof.
  exact (lambda_handler_without_address (λ _, "f") (λ sql, Ok sql) id id
           {[ "pathParameters" := Some ∅ ]} (module_heap "roads" "4326") eq_refl).
Defined.
